(** * photo-slideshow: the presentation state machine

    A shallow embedding of [src/photo-slideshow.js] (the refactored class,
    module [Slideshow] below) and of the older monolithic
    [photo-slideshow.js] (module [Legacy]), with the properties of the
    specification stated over them.

    Conventions of the embedding:
    - a JavaScript number that is used as an index or as a duration in
      milliseconds is a [Z]; [null] is [None];
    - an array is a [list]; reading past its ends gives [undefined], here
      [None]; reading a property of [undefined] raises a [TypeError], here
      the outcome [Threw];
    - a handler runs to completion at one instant [now] of the clock;
    - the logger only prints, so its calls are left out, except that the
      arguments of a call are evaluated (and may raise). *)

From Stdlib Require Import ZArith String Ascii List Bool Lia.
From stdpp Require Import base list strings.
Import ListNotations.

Local Open Scope Z_scope.

(** ** JavaScript arrays and strings *)

Section Arrays.
Context {A : Type}.

(** [l.length] *)
Definition len (l : list A) : Z := Z.of_nat (length l).

(** [l[i]] for a number [i]: [undefined] out of range. *)
Definition at_index (l : list A) (i : Z) : option A :=
  if i <? 0 then None else l !! Z.to_nat i.

(** [l[index]] for a value that may be [null]. *)
Definition at_value (l : list A) (index : option Z) : option A :=
  match index with
  | Some i => at_index l i
  | None => None
  end.

(** [l.splice(start, 1)]: a negative [start] counts from the end, a start
    beyond the end removes nothing. *)
Definition splice1 (start : Z) (l : list A) : list A :=
  let from := if start <? 0 then Z.max (len l + start) 0
              else Z.min start (len l) in
  delete (Z.to_nat from) l.

(** [l.findIndex(p)]: the first position where [p] holds, or [-1]. *)
Fixpoint findIndex (p : A -> bool) (l : list A) : Z :=
  match l with
  | [] => -1
  | x :: r =>
      if p x then 0
      else let k := findIndex p r in if k <? 0 then -1 else k + 1
  end.
End Arrays.

(** [s.startsWith(p)] *)
Definition startsWith (s p : string) : bool := String.prefix p s.

Definition slash : ascii := "/"%char.

Fixpoint has_slash (s : string) : bool :=
  match s with
  | EmptyString => false
  | String c r => Ascii.eqb c slash || has_slash r
  end.

(** [s.replace(/\/[^/]*$/, '')]: the pattern matches at the first position
    that holds a slash followed by no other slash up to the end of the
    string; the match is removed. Without a match the string is returned
    as it is. *)
Fixpoint strip_last_segment (s : string) : string :=
  match s with
  | EmptyString => EmptyString
  | String c r =>
      if Ascii.eqb c slash && negb (has_slash r) then EmptyString
      else String c (strip_last_segment r)
  end.

(** ** Data *)

Record Image := { url : string; width : Z; height : Z }.

(** The browser's timers: [setTimeout] hands out positive handles. *)
Record Timer := { timer_id : positive; timer_delay : Z }.

(** [clearTimeout(h)] of the browser. *)
Definition clearTimeout (h : positive) (live : list Timer) : list Timer :=
  List.filter (fun t => negb (Pos.eqb (timer_id t) h)) live.

(** ** The display surface *)

Module Viewer.

(** Modelled from the spec: the operations that §6 lists for the display
    surface ([viewer.js] is not among the sources). *)
Inductive call :=
| Preload (item : Image) (index : Z)
| CancelPreload
| ShowPreloaded
| Resize.

(** Modelled from the spec: [viewer.js] is not among the sources. §3 and
    §6 give the display surface a current index that is absent before the
    first show, the request being prepared, and a caption switch.
    [calls] records, oldest first, what the slideshow asked of it. *)
Record t := {
  showIndex : option Z;
  preloading : option (Image * Z);
  showCaption : bool;
  calls : list call
}.

(** Modelled from the spec: the display surface before the first show. *)
Definition init : t :=
  {| showIndex := None; preloading := None; showCaption := false;
     calls := [] |}.

(** Modelled from the spec: [preload(item, index)] of §6 begins preparing
    the item; §4.2 records it as the pending index. *)
Definition preload (item : Image) (index : Z) (v : t) : t :=
  {| showIndex := showIndex v; preloading := Some (item, index);
     showCaption := showCaption v;
     calls := calls v ++ [Preload item index] |}.

(** Modelled from the spec: [cancelPreload()] of §6 aborts the preparation
    in flight. *)
Definition cancelPreload (v : t) : t :=
  {| showIndex := showIndex v; preloading := None;
     showCaption := showCaption v;
     calls := calls v ++ [CancelPreload] |}.

(** Modelled from the spec: [showPreloaded()] of §6 promotes the most
    recently prepared item; §4.2: the current index becomes the pending
    one, which is cleared. *)
Definition showPreloaded (v : t) : t :=
  {| showIndex := match preloading v with
                  | Some (_, i) => Some i
                  | None => showIndex v
                  end;
     preloading := None;
     showCaption := showCaption v;
     calls := calls v ++ [ShowPreloaded] |}.

(** Modelled from the spec: [resize()] of §6 only lays the image out
    again; [showCaption] is the caption switch of §6. *)
Definition resize (v : t) : t :=
  {| showIndex := showIndex v; preloading := preloading v;
     showCaption := showCaption v; calls := calls v ++ [Resize] |}.

Definition set_showCaption (b : bool) (v : t) : t :=
  {| showIndex := showIndex v; preloading := preloading v;
     showCaption := b; calls := calls v |}.

(** Modelled from the spec: §4.2 gives the next index as the current
    index plus one and the previous index as the current index minus one,
    before any wrapping, which [next] and [previous] of the slideshow do.
    In that arithmetic JavaScript reads an absent index ([null]) as 0. *)
Definition nextIndex (v : t) : Z :=
  match showIndex v with Some i => i + 1 | None => 0 + 1 end.

Definition previousIndex (v : t) : Z :=
  match showIndex v with Some i => i - 1 | None => 0 - 1 end.
End Viewer.

(** ** The refactored slideshow, [src/photo-slideshow.js] *)

Module Slideshow.

(** The fields of the class that the presentation logic reads or writes.
    [this.images] is either the very array [this.config.images]
    ([focus_images] is [None]) or a filtered copy of it; a [splice] through
    [this.images] therefore changes the configured array exactly when the
    slideshow is not in focus mode ([config.js] is not among the sources;
    [this.config.images] is taken to be the one array that the loader
    delivered, as §6 of the specification has it). [timers] and [timerSeq]
    are the browser's side of [setTimeout]: the live timers and the next
    handle. *)
Record PhotoSlideshow := {
  config_images : list Image;
  focus_images : option (list Image);
  notes : list string;
  showNextTimeout : option positive;
  paused : bool;
  previousShow : option Z;
  timeout : Z;
  viewer : Viewer.t;
  timers : list Timer;
  timerSeq : positive
}.

Definition MINIMUM_TIMEOUT : Z := 500.

(** A handler either returns or raises; the fields keep what was written
    before the exception. *)
Inductive Outcome :=
| Returned (s : PhotoSlideshow)
| Threw (s : PhotoSlideshow).

Definition state_of (o : Outcome) : PhotoSlideshow :=
  match o with Returned s | Threw s => s end.

Definition andThen (o : Outcome) (k : PhotoSlideshow -> Outcome) : Outcome :=
  match o with
  | Returned s => k s
  | Threw s => Threw s
  end.

Notation "o >>> k" := (andThen o k) (at level 60, right associativity).

(** [this.images] *)
Definition images (s : PhotoSlideshow) : list Image :=
  match focus_images s with
  | Some l => l
  | None => config_images s
  end.

(** [get inFocusMode]: [this.images !== this.config.images] *)
Definition inFocusMode (s : PhotoSlideshow) : bool :=
  match focus_images s with Some _ => true | None => false end.

(** Field updates. *)
Definition with_arrays (c : list Image) (f : option (list Image))
    (s : PhotoSlideshow) : PhotoSlideshow :=
  {| config_images := c; focus_images := f; notes := notes s;
     showNextTimeout := showNextTimeout s; paused := paused s;
     previousShow := previousShow s; timeout := timeout s;
     viewer := viewer s; timers := timers s; timerSeq := timerSeq s |}.

Definition with_notes (n : list string) (s : PhotoSlideshow) : PhotoSlideshow :=
  {| config_images := config_images s; focus_images := focus_images s;
     notes := n;
     showNextTimeout := showNextTimeout s; paused := paused s;
     previousShow := previousShow s; timeout := timeout s;
     viewer := viewer s; timers := timers s; timerSeq := timerSeq s |}.

Definition with_timer_state (h : option positive) (live : list Timer)
    (seq : positive) (s : PhotoSlideshow) : PhotoSlideshow :=
  {| config_images := config_images s; focus_images := focus_images s;
     notes := notes s;
     showNextTimeout := h; paused := paused s;
     previousShow := previousShow s; timeout := timeout s;
     viewer := viewer s; timers := live; timerSeq := seq |}.

Definition with_paused (b : bool) (s : PhotoSlideshow) : PhotoSlideshow :=
  {| config_images := config_images s; focus_images := focus_images s;
     notes := notes s;
     showNextTimeout := showNextTimeout s; paused := b;
     previousShow := previousShow s; timeout := timeout s;
     viewer := viewer s; timers := timers s; timerSeq := timerSeq s |}.

Definition with_previousShow (p : option Z) (s : PhotoSlideshow)
    : PhotoSlideshow :=
  {| config_images := config_images s; focus_images := focus_images s;
     notes := notes s;
     showNextTimeout := showNextTimeout s; paused := paused s;
     previousShow := p; timeout := timeout s;
     viewer := viewer s; timers := timers s; timerSeq := timerSeq s |}.

Definition with_timeout (t : Z) (s : PhotoSlideshow) : PhotoSlideshow :=
  {| config_images := config_images s; focus_images := focus_images s;
     notes := notes s;
     showNextTimeout := showNextTimeout s; paused := paused s;
     previousShow := previousShow s; timeout := t;
     viewer := viewer s; timers := timers s; timerSeq := timerSeq s |}.

Definition with_viewer (v : Viewer.t) (s : PhotoSlideshow) : PhotoSlideshow :=
  {| config_images := config_images s; focus_images := focus_images s;
     notes := notes s;
     showNextTimeout := showNextTimeout s; paused := paused s;
     previousShow := previousShow s; timeout := timeout s;
     viewer := v; timers := timers s; timerSeq := timerSeq s |}.

(** A write through [this.images] (here: the result of [splice]) lands in
    the array that [this.images] refers to. *)
Definition write_images (l : list Image) (s : PhotoSlideshow)
    : PhotoSlideshow :=
  match focus_images s with
  | Some _ => with_arrays (config_images s) (Some l) s
  | None => with_arrays l None s
  end.

(** [this.images = this.config.images] and [this.images = images] *)
Definition leave_focus (s : PhotoSlideshow) : PhotoSlideshow :=
  with_arrays (config_images s) None s.

Definition enter_focus (l : list Image) (s : PhotoSlideshow)
    : PhotoSlideshow :=
  with_arrays (config_images s) (Some l) s.

(** [setTimeout(f, delay)] of the browser; the callback is always
    [showPreloaded]. *)
Definition setTimeout (delay : Z) (s : PhotoSlideshow) : PhotoSlideshow :=
  with_timer_state (Some (timerSeq s))
    (timers s ++ [{| timer_id := timerSeq s; timer_delay := delay |}])
    (Pos.succ (timerSeq s)) s.

(** [get currentImage] *)
Definition currentImage (s : PhotoSlideshow) : option Image :=
  match Viewer.showIndex (viewer s) with
  | None => None
  | Some index => at_index (images s) index
  end.

Definition stopTimeout (s : PhotoSlideshow) : PhotoSlideshow :=
  match showNextTimeout s with
  | Some h => with_timer_state None (clearTimeout h (timers s)) (timerSeq s) s
  | None => s
  end.

(** [preload(index)]: [next.url] in the log message raises when
    [this.images[index]] is [undefined]. *)
Definition preload (index : option Z) (s : PhotoSlideshow) : Outcome :=
  let s := stopTimeout s in
  match index with
  | Some i =>
      match at_index (images s) i with
      | Some next => Returned (with_viewer (Viewer.preload next i (viewer s)) s)
      | None => Threw s
      end
  | None => Threw s
  end.

Definition showPreloadingImageImmediatly (s : PhotoSlideshow)
    : PhotoSlideshow :=
  with_previousShow None s.

(** [removeImage(index)]: [!index] holds for [null] and for [0]. *)
Definition removeImage (index : option Z) (s : PhotoSlideshow) : Outcome :=
  match index with
  | None => Returned s
  | Some i =>
      if i =? 0 then Returned s
      else if i >? len (images s) - 1 then Returned s
      else if len (images s) =? 1 then Returned s
      else
        match at_index (images s) i with
        | Some image => Returned (write_images (splice1 i (images s)) s)
        | None => Threw s
        end
  end.

Definition previous (s : PhotoSlideshow) : Outcome :=
  let previousIndex := Viewer.previousIndex (viewer s) in
  let previousIndex :=
    if previousIndex <? 0 then len (images s) - 1 else previousIndex in
  preload (Some previousIndex) s.

Definition next (s : PhotoSlideshow) : Outcome :=
  let nextIndex := Viewer.nextIndex (viewer s) in
  let nextIndex := if nextIndex >=? len (images s) then 0 else nextIndex in
  preload (Some nextIndex) s.

(** [index === this.images.length] for an index that may be [null]. *)
Definition is_length (index : option Z) (s : PhotoSlideshow) : bool :=
  match index with
  | Some i => i =? len (images s)
  | None => false
  end.

(** [removeCurrent()]: [nextIndex] is computed and not used; the preload is
    issued for [index]. *)
Definition removeCurrent (s : PhotoSlideshow) : Outcome :=
  let s := stopTimeout s in
  let index := Viewer.showIndex (viewer s) in
  removeImage index s >>> (fun s =>
  let nextIndex := if is_length index s then Some 0 else index in
  let s := showPreloadingImageImmediatly s in
  preload index s).

Definition showPreloaded (now : Z) (s : PhotoSlideshow) : Outcome :=
  let s := with_timer_state None (timers s) (timerSeq s) s in
  let s := with_viewer (Viewer.showPreloaded (viewer s)) s in
  let s := with_previousShow (Some now) s in
  next s.

(** [imageLoaded(image, index)]: [this.previousShow] is [null] or a [Date],
    and every [Date] is truthy. *)
Definition imageLoaded (now : Z) (image : Image) (index : Z)
    (s : PhotoSlideshow) : Outcome :=
  let s := stopTimeout s in
  match previousShow s with
  | None => showPreloaded now s
  | Some shown =>
      let elapsed := now - shown in
      let remainder := timeout s - elapsed in
      if remainder <? 0 then showPreloaded now s
      else Returned (setTimeout remainder s)
  end.

Definition imageFailed (image : Image) (index : Z) (s : PhotoSlideshow)
    : Outcome :=
  let s := with_notes (notes s ++ [String.append "Missing " (url image)]) s in
  removeImage (Some index) s >>> (fun s =>
  let nextIndex := if index =? len (images s) then 0 else index in
  let s := showPreloadingImageImmediatly s in
  preload (Some nextIndex) s).

(** [addNote()]: [image.url] raises when the shown index has no item. *)
Definition addNote (s : PhotoSlideshow) : Outcome :=
  match Viewer.showIndex (viewer s) with
  | None => Returned s
  | Some index =>
      match at_index (images s) index with
      | None => Threw s
      | Some image =>
          let exists_ := findIndex (fun u => String.eqb u (url image)) (notes s) in
          if negb (exists_ =? -1) then Returned s
          else Returned (with_notes (notes s ++ [url image]) s)
      end
  end.

Definition resetNotes (s : PhotoSlideshow) : PhotoSlideshow :=
  with_notes [] s.

Definition goToNext (s : PhotoSlideshow) : Outcome :=
  let s := stopTimeout s in
  let s := showPreloadingImageImmediatly s in
  next s.

Definition goToPrevious (s : PhotoSlideshow) : Outcome :=
  let s := showPreloadingImageImmediatly s in
  previous s.

Definition slowDown (s : PhotoSlideshow) : PhotoSlideshow :=
  with_timeout (timeout s + 500) s.

Definition speedUp (s : PhotoSlideshow) : PhotoSlideshow :=
  if timeout s <=? MINIMUM_TIMEOUT then s
  else with_timeout (timeout s - 500) s.

Definition toggleCaptions (s : PhotoSlideshow) : PhotoSlideshow :=
  if Viewer.showCaption (viewer s)
  then with_viewer (Viewer.resize (Viewer.set_showCaption false (viewer s))) s
  else with_viewer (Viewer.resize (Viewer.set_showCaption true (viewer s))) s.

Definition toggleFocusMode (s : PhotoSlideshow) : Outcome :=
  match currentImage s with
  | None => Returned s
  | Some current =>
      let s := stopTimeout s in
      let s := with_viewer (Viewer.cancelPreload (viewer s)) s in
      let s :=
        if inFocusMode s then leave_focus s
        else
          let path := strip_last_segment (url current) in
          let images :=
            List.filter (fun i => startsWith (url i) path) (config_images s) in
          enter_focus images s in
      let currentIndex :=
        findIndex (fun i => String.eqb (url i) (url current)) (images s) in
      let nextIndex :=
        if currentIndex =? len (images s) - 1 then 0 else currentIndex + 1 in
      preload (Some nextIndex) s
  end.

Definition togglePause (s : PhotoSlideshow) : Outcome :=
  if paused s then
    next s >>> (fun s => Returned (with_paused false s))
  else
    let s := stopTimeout s in
    let s := with_viewer (Viewer.cancelPreload (viewer s)) s in
    Returned (with_paused true s).

Definition resize (s : PhotoSlideshow) : PhotoSlideshow :=
  with_viewer (Viewer.resize (viewer s)) s.

(** The object as [run()] leaves it, then [configLoaded()] with the
    configured images and timeout. *)
Definition configLoaded (imgs : list Image) (t : Z) : Outcome :=
  preload (Some 0)
    {| config_images := imgs; focus_images := None; notes := [];
       showNextTimeout := None; paused := false; previousShow := None;
       timeout := t; viewer := Viewer.init; timers := []; timerSeq := 1%positive |}.

(** ** Events

    What can happen after the configuration is loaded: a named key from the
    key watcher, a callback of the display surface, the timer, a resize of
    the window. *)
Inductive Event :=
| Key_c | Key_f | Key_del | Key_h | Key_l | Key_left | Key_minus
| Key_n | Key_plus | Key_q | Key_r | Key_right | Key_space | Key_v
| ImageLoaded (now : Z) (image : Image) (index : Z)
| ImageFailed (image : Image) (index : Z)
| TimerFired (now : Z) (h : positive)
| WindowResized.

Definition is_live (h : positive) (live : list Timer) : bool :=
  existsb (fun t => Pos.eqb (timer_id t) h) live.

(** A one-shot timer that is still live fires once and is gone; its
    callback is [showPreloaded]. The keys [h], [l], [q] and [v] touch the
    document, the alert box and the logger only. *)
Definition handle (e : Event) (s : PhotoSlideshow) : Outcome :=
  match e with
  | Key_c => Returned (toggleCaptions s)
  | Key_f => toggleFocusMode s
  | Key_del => removeCurrent s
  | Key_h | Key_l | Key_q | Key_v => Returned s
  | Key_left => goToPrevious s
  | Key_minus => Returned (slowDown s)
  | Key_n => addNote s
  | Key_plus => Returned (speedUp s)
  | Key_r => Returned (resetNotes s)
  | Key_right => goToNext s
  | Key_space => togglePause s
  | ImageLoaded now image index => imageLoaded now image index s
  | ImageFailed image index => imageFailed image index s
  | TimerFired now h =>
      if is_live h (timers s)
      then showPreloaded now
             (with_timer_state (showNextTimeout s) (clearTimeout h (timers s))
                (timerSeq s) s)
      else Returned s
  | WindowResized => Returned (resize s)
  end.

(** An exception ends the handler, not the page: the next event finds the
    fields as the failed handler left them. *)
Definition run (es : list Event) (s : PhotoSlideshow) : PhotoSlideshow :=
  fold_left (fun s e => state_of (handle e s)) es s.

End Slideshow.

(** ** The older monolithic slideshow, [photo-slideshow.js] *)

Module Legacy.

(** The fields after [start()]. [preloader_src] is the url handed to the
    preloading [Image] object, [img_src] the url on screen. The fitting of
    the image to the viewport in [showNext] only writes the style of the
    [img] element and is left out. *)
Record PhotoSlideshow := {
  images : list Image;
  index : option Z;
  preloadIndex : option Z;
  previousShow : option Z;
  timeout : Z;
  showNextTimeout : option positive;
  preloader_src : option string;
  img_src : option string;
  timers : list Timer;
  timerSeq : positive
}.

Definition DEFAULT_TIMEOUT : Z := 5000.
Definition MINIMUM_TIMEOUT : Z := 500.

Inductive Outcome :=
| Returned (s : PhotoSlideshow)
| Threw (s : PhotoSlideshow).

Definition state_of (o : Outcome) : PhotoSlideshow :=
  match o with Returned s | Threw s => s end.

Definition andThen (o : Outcome) (k : PhotoSlideshow -> Outcome) : Outcome :=
  match o with
  | Returned s => k s
  | Threw s => Threw s
  end.

(** In a comparison or a sum JavaScript reads [null] as 0. *)
Definition to_number (v : option Z) : Z :=
  match v with Some i => i | None => 0 end.

Definition with_images (l : list Image) (s : PhotoSlideshow) : PhotoSlideshow :=
  {| images := l; index := index s; preloadIndex := preloadIndex s;
     previousShow := previousShow s; timeout := timeout s;
     showNextTimeout := showNextTimeout s; preloader_src := preloader_src s;
     img_src := img_src s; timers := timers s; timerSeq := timerSeq s |}.

Definition with_index (i : option Z) (s : PhotoSlideshow) : PhotoSlideshow :=
  {| images := images s; index := i; preloadIndex := preloadIndex s;
     previousShow := previousShow s; timeout := timeout s;
     showNextTimeout := showNextTimeout s; preloader_src := preloader_src s;
     img_src := img_src s; timers := timers s; timerSeq := timerSeq s |}.

Definition with_preload (i : option Z) (src : option string)
    (s : PhotoSlideshow) : PhotoSlideshow :=
  {| images := images s; index := index s; preloadIndex := i;
     previousShow := previousShow s; timeout := timeout s;
     showNextTimeout := showNextTimeout s; preloader_src := src;
     img_src := img_src s; timers := timers s; timerSeq := timerSeq s |}.

Definition with_previousShow (p : option Z) (s : PhotoSlideshow)
    : PhotoSlideshow :=
  {| images := images s; index := index s; preloadIndex := preloadIndex s;
     previousShow := p; timeout := timeout s;
     showNextTimeout := showNextTimeout s; preloader_src := preloader_src s;
     img_src := img_src s; timers := timers s; timerSeq := timerSeq s |}.

Definition with_timeout (t : Z) (s : PhotoSlideshow) : PhotoSlideshow :=
  {| images := images s; index := index s; preloadIndex := preloadIndex s;
     previousShow := previousShow s; timeout := t;
     showNextTimeout := showNextTimeout s; preloader_src := preloader_src s;
     img_src := img_src s; timers := timers s; timerSeq := timerSeq s |}.

Definition with_timer_state (h : option positive) (live : list Timer)
    (seq : positive) (s : PhotoSlideshow) : PhotoSlideshow :=
  {| images := images s; index := index s; preloadIndex := preloadIndex s;
     previousShow := previousShow s; timeout := timeout s;
     showNextTimeout := h; preloader_src := preloader_src s;
     img_src := img_src s; timers := live; timerSeq := seq |}.

Definition with_img_src (src : option string) (s : PhotoSlideshow)
    : PhotoSlideshow :=
  {| images := images s; index := index s; preloadIndex := preloadIndex s;
     previousShow := previousShow s; timeout := timeout s;
     showNextTimeout := showNextTimeout s; preloader_src := preloader_src s;
     img_src := src; timers := timers s; timerSeq := timerSeq s |}.

Definition setTimeout (delay : Z) (s : PhotoSlideshow) : PhotoSlideshow :=
  with_timer_state (Some (timerSeq s))
    (timers s ++ [{| timer_id := timerSeq s; timer_delay := delay |}])
    (Pos.succ (timerSeq s)) s.

Definition stopTimeout (s : PhotoSlideshow) : PhotoSlideshow :=
  match showNextTimeout s with
  | Some h =>
      with_timer_state None (clearTimeout h (timers s)) (timerSeq s) s
  | None => s
  end.

Definition preload (i : option Z) (s : PhotoSlideshow) : Outcome :=
  let s := stopTimeout s in
  match at_value (images s) i with
  | Some next => Returned (with_preload i (Some (url next)) s)
  | None => Threw s
  end.

Definition showPreloadingImageImmediatly (s : PhotoSlideshow)
    : PhotoSlideshow :=
  with_previousShow None s.

(** [removeCurrent()]: the index is reset only when it equals the new
    length plus one. *)
Definition removeCurrent (s : PhotoSlideshow) : Outcome :=
  if len (images s) <=? 1 then Returned s
  else
    match at_value (images s) (index s) with
    | None => Threw s
    | Some image =>
        let s := with_images (splice1 (to_number (index s)) (images s)) s in
        match index s with
        | Some i =>
            if i =? len (images s) + 1 then Returned (with_index (Some 0) s)
            else Returned s
        | None => Returned s
        end
    end.

Definition previous (s : PhotoSlideshow) : Outcome :=
  let nextIndex :=
    if to_number (index s) <? 1 then len (images s) - 1
    else to_number (index s) - 1 in
  preload (Some nextIndex) s.

Definition next (s : PhotoSlideshow) : Outcome :=
  let nextIndex :=
    if to_number (index s) <? len (images s) - 1
    then to_number (index s) + 1
    else 0 in
  preload (Some nextIndex) s.

Definition showNext (now : Z) (s : PhotoSlideshow) : Outcome :=
  let s := with_index (preloadIndex s) s in
  let s := with_preload None (preloader_src s) s in
  match at_value (images s) (index s) with
  | None => Threw s
  | Some image =>
      let s := with_timer_state None (timers s) (timerSeq s) s in
      let s := with_img_src (preloader_src s) s in
      let s := with_previousShow (Some now) s in
      next s
  end.

Definition imageLoaded (now : Z) (s : PhotoSlideshow) : Outcome :=
  match at_value (images s) (preloadIndex s) with
  | None => Threw s
  | Some image =>
      match previousShow s with
      | None => showNext now s
      | Some shown =>
          let elapsed := now - shown in
          let remainder := timeout s - elapsed in
          if remainder <? 0 then showNext now s
          else Returned (setTimeout remainder s)
      end
  end.

Definition imageFailed (s : PhotoSlideshow) : Outcome :=
  match at_value (images s) (index s) with
  | None => Threw s
  | Some image =>
      andThen (removeCurrent s) (fun s =>
      let s := showPreloadingImageImmediatly s in
      preload (index s) s)
  end.

(** [keydown(evt)], by [evt.keyCode]; [q] (81) and [v] (86) only turn the
    logger's level. *)
Definition keydown (keyCode : Z) (s : PhotoSlideshow) : Outcome :=
  match keyCode with
  | 32 =>
      match showNextTimeout s with
      | Some _ => Returned (stopTimeout s)
      | None =>
          let s := showPreloadingImageImmediatly s in
          preload (index s) s
      end
  | 37 =>
      let s := showPreloadingImageImmediatly s in
      previous s
  | 39 =>
      let s := showPreloadingImageImmediatly s in
      next s
  | 46 =>
      let s := stopTimeout s in
      andThen (removeCurrent s) (fun s =>
      let s := showPreloadingImageImmediatly s in
      preload (index s) s)
  | 61 =>
      if timeout s <=? MINIMUM_TIMEOUT then Returned s
      else Returned (with_timeout (timeout s - 500) s)
  | 173 => Returned (with_timeout (timeout s + 500) s)
  | _ => Returned s
  end.

End Legacy.

(** ** The older slideshow before it starts: [configURL], [errors], [ok] *)

Module Startup.

(** What the getters read: [this.window], [null] or a window that is known
    by its [location.search]; whether [this.viewer] is given; and the
    cache [this._errors], [null] until [errors] is first read. *)
Record PhotoSlideshow := {
  window : option string;
  viewer : bool;
  _errors : option (list string)
}.

(** A getter yields a value or raises; either way it may have written the
    cache. *)
Inductive Result (T : Type) :=
| Value (v : T) (s : PhotoSlideshow)
| Raised (s : PhotoSlideshow).

Arguments Value {T} v s.
Arguments Raised {T} s.

Definition with_errors (e : list string) (s : PhotoSlideshow)
    : PhotoSlideshow :=
  {| window := window s; viewer := viewer s; _errors := Some e |}.

Section Browser.

(** [new URLSearchParams(search).get('config')] of the browser: the first
    value of the parameter, or [null]. *)
Variable config_param : string -> option string.

(** [get configURL]: reading [this.window.location] raises when the window
    is [null], here [None]; the value is a string or [null]. *)
Definition configURL (s : PhotoSlideshow) : option (option string) :=
  match window s with
  | None => None
  | Some search =>
      if String.eqb search "" then Some None
      else Some (config_param search)
  end.

(** [!v] for a string or [null]: the empty string is falsy too. *)
Definition is_falsy (v : option string) : bool :=
  match v with
  | None => true
  | Some u => String.eqb u ""
  end.

(** [get errors]: a cached array, even an empty one, is truthy and is
    returned as it is; otherwise the array is stored first and filled in
    place, so an exception leaves the messages pushed so far. *)
Definition errors (s : PhotoSlideshow) : Result (list string) :=
  match _errors s with
  | Some e => Value e s
  | None =>
      let e := [] in
      let e := match window s with
               | None => e ++ ["window is null"]
               | Some _ => e
               end in
      let e := if negb (viewer s) then e ++ ["viewer is null"] else e in
      match configURL s with
      | None => Raised (with_errors e s)
      | Some u =>
          let e := if is_falsy u
                   then e ++ ["supply a config=URL query parameter"]
                   else e in
          Value e (with_errors e s)
      end
  end.

(** [get ok]: [this.errors.length === 0] *)
Definition ok (s : PhotoSlideshow) : Result bool :=
  match errors s with
  | Value e s' => Value (len e =? 0) s'
  | Raised s' => Raised s'
  end.

End Browser.

End Startup.

(** ** Notions used in the statements *)

Import Slideshow.

(** The index that [next()] preloads while the image at [i] is on screen,
    in a collection of [n] images, and the same for [previous()]. *)
Definition next_index (n i : Z) : Z :=
  let nextIndex := i + 1 in
  if nextIndex >=? n then 0 else nextIndex.

Definition previous_index (n i : Z) : Z :=
  let previousIndex := i - 1 in
  if previousIndex <? 0 then n - 1 else previousIndex.

(** The path prefix in the words of the specification: all characters up
    to and including the final slash (nothing when there is no slash). *)
Fixpoint spec_path_prefix (s : string) : string :=
  match s with
  | EmptyString => EmptyString
  | String c r =>
      if has_slash s then String c (spec_path_prefix r) else EmptyString
  end.

(** The focus subset in the words of the specification. *)
Definition spec_focus_set (reference : Image) (full : list Image)
    : list Image :=
  List.filter (fun i => startsWith (url i) (spec_path_prefix (url reference)))
    full.

(** Every live timer is the one whose handle the slideshow holds. *)
Definition timers_tracked (s : PhotoSlideshow) : Prop :=
  forall t, In t (timers s) -> showNextTimeout s = Some (timer_id t).

(** The display surface is asked to show the prepared image, first thing
    after [s]. *)
Definition displays_at_once (s : PhotoSlideshow) (o : Outcome) : Prop :=
  exists rest,
    Viewer.calls (viewer (state_of o))
    = Viewer.calls (viewer s) ++ Viewer.ShowPreloaded :: rest.

(** The request that the display surface is preparing. *)
Definition pending (s : PhotoSlideshow) : option (Image * Z) :=
  Viewer.preloading (viewer s).

(** The outcome [o] of a handler run in [s] shows the prepared image at
    once: the display surface is asked to show it, the index on screen is
    the pending one, and no timer is live or held afterwards. *)
Definition shown_immediately (s : PhotoSlideshow) (o : Outcome) : Prop :=
  displays_at_once s o
  /\ Viewer.showIndex (viewer (state_of o))
     = match pending s with
       | Some (_, i) => Some i
       | None => Viewer.showIndex (viewer s)
       end
  /\ timers (state_of o) = []
  /\ showNextTimeout (state_of o) = None.

(** The outcome [o] of a handler run in [s] waits [remainder] ms: the
    handler returns with the display surface untouched and exactly one live
    timer, of that delay, whose handle the slideshow holds; when that timer
    fires, the prepared image is shown at once. *)
Definition waits (remainder : Z) (s : PhotoSlideshow) (o : Outcome) : Prop :=
  exists s' h,
    o = Returned s'
    /\ viewer s' = viewer s
    /\ timers s' = [{| timer_id := h; timer_delay := remainder |}]
    /\ showNextTimeout s' = Some h
    /\ forall later, shown_immediately s' (handle (TimerFired later h) s').

(** [s'] has the two arrays of [s]. *)
Definition same_arrays (s s' : PhotoSlideshow) : Prop :=
  config_images s' = config_images s /\ focus_images s' = focus_images s.

(** At most one timer is live, and it is the one whose handle the
    slideshow holds; [idle]: no timer is live and no handle is held. *)
Definition one_timer (s : PhotoSlideshow) : Prop :=
  match showNextTimeout s with
  | Some h => exists d, timers s = [{| timer_id := h; timer_delay := d |}]
  | None => timers s = []
  end.

Definition idle (s : PhotoSlideshow) : Prop :=
  showNextTimeout s = None /\ timers s = [].

(** Both arrays hold an image. *)
Definition nonempty (s : PhotoSlideshow) : Prop :=
  config_images s <> [] /\ images s <> [].

(** Sample data. *)
Definition image_of (u : string) : Image :=
  {| url := u; width := 800; height := 600 |}.

Definition A : Image := image_of "a.jpg".
Definition B : Image := image_of "b.jpg".
Definition C : Image := image_of "c.jpg".

(** The slideshow over [imgs] with the image at [i] on screen and nothing
    pending. *)
Definition showing (imgs : list Image) (i : Z) (t : Z) : PhotoSlideshow :=
  {| config_images := imgs; focus_images := None; notes := [];
     showNextTimeout := None; paused := false; previousShow := None;
     timeout := t;
     viewer := {| Viewer.showIndex := Some i; Viewer.preloading := None;
                  Viewer.showCaption := false; Viewer.calls := [] |};
     timers := []; timerSeq := 1%positive |}.

(** The scenario of the specification over [A; B; C] with a timeout of
    [t] ms: the configuration is loaded, [A] is prepared and shown at time
    0, [B] is prepared 200 ms later and waits for its timer. *)
Definition waiting_for_B (t : Z) : PhotoSlideshow :=
  run [ImageLoaded 0 A 0; ImageLoaded 200 B 1]
    (state_of (configLoaded [A; B; C] t)).

(** The same, then paused with the space key. *)
Definition paused_before_B (t : Z) : PhotoSlideshow :=
  run [Key_space] (waiting_for_B t).

(** The older slideshow over [imgs] with the image at [i] on screen since
    [shown], and nothing pending. *)
Definition legacy_showing (imgs : list Image) (i : Z) (shown : option Z)
    (t : Z) : Legacy.PhotoSlideshow :=
  {| Legacy.images := imgs; Legacy.index := Some i;
     Legacy.preloadIndex := None; Legacy.previousShow := shown;
     Legacy.timeout := t; Legacy.showNextTimeout := None;
     Legacy.preloader_src := None; Legacy.img_src := None;
     Legacy.timers := []; Legacy.timerSeq := 1%positive |}.


(** [showPreloaded] called once at each of the times [nows], whether by a
    timer or straight from [imageLoaded]. *)
Definition display_all (nows : list Z) (s : PhotoSlideshow) : PhotoSlideshow :=
  fold_left (fun s now => state_of (showPreloaded now s)) nows s.

(** The failure callback for [image] at index 0, [k] times in a row. *)
Definition fail_first (image : Image) (k : nat) (s : PhotoSlideshow)
    : PhotoSlideshow :=
  Nat.iter k (fun s => state_of (imageFailed image 0 s)) s.

(** A ledger entry that reads like a failure note. *)
Definition is_failure_note (u : string) : bool := String.prefix "Missing " u.

(** ** Arrays and strings *)

Section ArrayFacts.
Context {T : Type}.
Implicit Types (l : list T) (i : Z).

Lemma len_nonneg l : 0 <= len l.
Proof. unfold len. lia. Qed.

Lemma len_nil_iff l : len l = 0 <-> l = [].
Proof.
  unfold len. destruct l; simpl; split; intros H; try done; lia.
Qed.

Lemma at_index_Some l i x :
  at_index l i = Some x <-> 0 <= i /\ l !! Z.to_nat i = Some x.
Proof.
  unfold at_index. destruct (Z.ltb_spec i 0); split; intros H'.
  - discriminate.
  - lia.
  - auto.
  - tauto.
Qed.

Lemma at_index_range l i x : at_index l i = Some x -> 0 <= i < len l.
Proof.
  intros [Hi Hl]%at_index_Some. apply lookup_lt_Some in Hl.
  unfold len. lia.
Qed.

Lemma at_index_in_range l i : 0 <= i < len l -> is_Some (at_index l i).
Proof.
  intros Hi. unfold at_index. destruct (Z.ltb_spec i 0); [lia|].
  apply lookup_lt_is_Some. unfold len in Hi. lia.
Qed.

Lemma at_index_None l i : at_index l i = None <-> i < 0 \/ len l <= i.
Proof.
  unfold at_index, len. destruct (Z.ltb_spec i 0).
  - split; auto.
  - rewrite lookup_ge_None. lia.
Qed.

Lemma splice1_in_range l i :
  0 <= i < len l -> splice1 i l = delete (Z.to_nat i) l.
Proof.
  intros Hi. unfold splice1. destruct (Z.ltb_spec i 0); [lia|].
  by rewrite Z.min_l by lia.
Qed.

Lemma len_splice1 l i : 0 <= i < len l -> len (splice1 i l) = len l - 1.
Proof.
  intros Hi. rewrite splice1_in_range by done. unfold len in *.
  rewrite length_delete; [lia|]. apply lookup_lt_is_Some. lia.
Qed.

Lemma findIndex_range (p : T -> bool) l :
  findIndex p l = -1 \/ 0 <= findIndex p l < len l.
Proof.
  induction l as [|x r IH]; [by left|]. cbn [findIndex]. unfold len in *.
  destruct (p x); [right; simpl; lia|].
  destruct (Z.ltb_spec (findIndex p r) 0); [by left|].
  right. simpl. lia.
Qed.

Lemma findIndex_found (p : T -> bool) l x :
  In x l -> p x = true -> 0 <= findIndex p l < len l.
Proof.
  induction l as [|y r IH]; [done|]. intros Hin Hp. cbn [findIndex].
  unfold len in *. destruct (p y) eqn:Hy; [simpl; lia|].
  destruct Hin as [->|Hin]; [congruence|]. specialize (IH Hin Hp).
  destruct (Z.ltb_spec (findIndex p r) 0); simpl; lia.
Qed.

Lemma findIndex_absent (p : T -> bool) l :
  (forall x, In x l -> p x = false) -> findIndex p l = -1.
Proof.
  induction l as [|y r IH]; [done|]. intros H. cbn [findIndex].
  rewrite (H y) by (by left). rewrite IH by (intros; apply H; by right).
  done.
Qed.
End ArrayFacts.

Lemma strip_last_segment_prefix (u : string) :
  String.prefix (strip_last_segment u) u = true.
Proof.
  induction u as [|c r IH]; [done|]. cbn [strip_last_segment].
  destruct (Ascii.eqb c slash && negb (has_slash r)); [done|].
  cbn [String.prefix]. destruct (ascii_dec c c); [exact IH|congruence].
Qed.

Lemma strip_last_segment_no_slash (u : string) :
  has_slash u = false -> strip_last_segment u = u.
Proof.
  induction u as [|c r IH]; [done|]. cbn [has_slash strip_last_segment].
  intros [Hc Hr]%orb_false_iff. rewrite Hc. cbn. by rewrite IH.
Qed.

Lemma length_append (a b : string) :
  String.length (String.append a b) = (String.length a + String.length b)%nat.
Proof.
  induction a as [|c a IH]; [done|].
  change (S (String.length (String.append a b))
          = S (String.length a + String.length b)).
  by rewrite IH.
Qed.

Lemma missing_note_is_not_the_url (u : string) : String.append "Missing " u <> u.
Proof.
  intros H. apply (f_equal String.length) in H. rewrite length_append in H.
  change (String.length "Missing ") with 8%nat in H. lia.
Qed.

(** ** The fields that each operation leaves alone *)

Lemma images_write_images l s : images (write_images l s) = l.
Proof. unfold write_images, images. by destruct (focus_images s). Qed.

Lemma arrays_stopTimeout s :
  focus_images (stopTimeout s) = focus_images s
  /\ config_images (stopTimeout s) = config_images s.
Proof. unfold stopTimeout. by destruct (showNextTimeout s). Qed.

Lemma images_stopTimeout s : images (stopTimeout s) = images s.
Proof. unfold stopTimeout. by destruct (showNextTimeout s). Qed.

Lemma stopTimeout_clears s : showNextTimeout (stopTimeout s) = None.
Proof. unfold stopTimeout. by destruct (showNextTimeout s) eqn:E. Qed.

Lemma stopTimeout_idle s : showNextTimeout s = None -> stopTimeout s = s.
Proof. unfold stopTimeout. by intros ->. Qed.

Lemma stopTimeout_tracked s : timers_tracked s -> timers (stopTimeout s) = [].
Proof.
  unfold timers_tracked, stopTimeout. intros Htr.
  destruct (showNextTimeout s) as [h|] eqn:Eh; cbn.
  - unfold clearTimeout. induction (timers s) as [|t r IH]; [done|].
    cbn. assert (Some h = Some (timer_id t)) as [= ->] by (apply Htr; by left).
    rewrite Pos.eqb_refl. cbn. apply IH. intros t' Ht'. apply Htr. by right.
  - destruct (timers s) as [|t r]; [done|].
    specialize (Htr t (or_introl eq_refl)). discriminate.
Qed.

(** [preload] for an index in range asks the display surface for that item
    and cancels the timer; out of range it raises. *)
Lemma preload_in_range s i item :
  at_index (images s) i = Some item ->
  preload (Some i) s
  = Returned (with_viewer (Viewer.preload item i (viewer (stopTimeout s)))
                (stopTimeout s)).
Proof. intros H. unfold preload. by rewrite images_stopTimeout, H. Qed.

Lemma preload_out_of_range s i :
  at_index (images s) i = None -> preload (Some i) s = Threw (stopTimeout s).
Proof. intros H. unfold preload. by rewrite images_stopTimeout, H. Qed.

Lemma preload_keeps_arrays index s :
  config_images (state_of (preload index s)) = config_images s
  /\ focus_images (state_of (preload index s)) = focus_images s.
Proof.
  unfold preload, stopTimeout.
  destruct index as [i|]; [destruct (at_index _ i)|];
    destruct (showNextTimeout s); done.
Qed.

Lemma images_preload index s : images (state_of (preload index s)) = images s.
Proof.
  unfold images. destruct (preload_keeps_arrays index s) as [-> ->]. done.
Qed.

(** [removeImage] in the one case where it removes. *)
Lemma removeImage_removes s i :
  1 <= i < len (images s) ->
  removeImage (Some i) s
  = Returned (write_images (delete (Z.to_nat i) (images s)) s).
Proof.
  intros Hi. unfold removeImage.
  destruct (Z.eqb_spec i 0); [lia|].
  destruct (Z.gtb_spec i (len (images s) - 1)); [lia|].
  destruct (Z.eqb_spec (len (images s)) 1); [lia|].
  destruct (at_index_in_range (images s) i) as [x Hx]; [lia|].
  rewrite Hx. by rewrite splice1_in_range by lia.
Qed.

(** [removeImage] never raises for an index that is not negative, and it
    returns the collection either as it was or one shorter and not empty. *)
Lemma removeImage_images index s :
  images (state_of (removeImage index s)) = images s
  \/ (exists i, index = Some i /\ 1 <= i < len (images s)
      /\ images (state_of (removeImage index s))
         = delete (Z.to_nat i) (images s)).
Proof.
  unfold removeImage. destruct index as [i|]; [|by left].
  destruct (Z.eqb_spec i 0); [by left|].
  destruct (Z.gtb_spec i (len (images s) - 1)); [by left|].
  destruct (Z.eqb_spec (len (images s)) 1); [by left|].
  destruct (at_index (images s) i) as [x|] eqn:Hx; [|by left].
  right. exists i. apply at_index_range in Hx as Hr.
  split; [done|]. split; [lia|]. cbn.
  by rewrite images_write_images, splice1_in_range.
Qed.

(** ** Removal *)

(** C10. For every collection of more than one image, [removeImage] with
    index 0, or with a null index, returns with every field unchanged,
    although index 0 holds an image; so deleting the current image while
    the first one is on screen removes nothing. *)
Theorem removeImage_first_is_noop (s : PhotoSlideshow) :
  1 < len (images s) ->
  is_Some (at_index (images s) 0)
  /\ removeImage (Some 0) s = Returned s
  /\ removeImage None s = Returned s
  /\ (Viewer.showIndex (viewer s) = Some 0 ->
      images (state_of (removeCurrent s)) = images s).
Proof.
  intros Hlen. split; [apply at_index_in_range; lia|].
  split; [done|]. split; [done|]. intros Hshown.
  unfold removeCurrent.
  replace (Viewer.showIndex (viewer (stopTimeout s))) with (Some 0)
    by (unfold stopTimeout; destruct (showNextTimeout s); by rewrite <- Hshown).
  change (removeImage (Some 0) (stopTimeout s)) with (Returned (stopTimeout s)).
  unfold andThen. cbv zeta. rewrite images_preload.
  apply images_stopTimeout.
Qed.

Lemma removeImage_first_is_noop_witness :
  is_Some (at_index (images (showing [A; B; C] 0 1000)) 0)
  /\ removeImage (Some 0) (showing [A; B; C] 0 1000)
     = Returned (showing [A; B; C] 0 1000)
  /\ removeImage None (showing [A; B; C] 0 1000)
     = Returned (showing [A; B; C] 0 1000)
  /\ (Viewer.showIndex (viewer (showing [A; B; C] 0 1000)) = Some 0 ->
      images (state_of (removeCurrent (showing [A; B; C] 0 1000)))
      = images (showing [A; B; C] 0 1000)).
Proof. apply (removeImage_first_is_noop (showing [A; B; C] 0 1000)). reflexivity. Defined.

(** With one image left, [removeImage] is a no-op at every index. *)
Lemma removeImage_keeps_single s index :
  len (images s) = 1 -> removeImage index s = Returned s.
Proof.
  intros Hlen. unfold removeImage. destruct index as [i|]; [|done].
  destruct (Z.eqb_spec i 0); [done|].
  destruct (Z.gtb_spec i (len (images s) - 1)); [done|].
  by rewrite Hlen.
Qed.

(** No removal empties a collection that holds an image. *)
Lemma removeImage_nonempty index s :
  nonempty s -> nonempty (state_of (removeImage index s)).
Proof.
  intros [Hc Hi]. unfold removeImage. destruct index as [i|]; [|done].
  destruct (Z.eqb_spec i 0); [done|].
  destruct (Z.gtb_spec i (len (images s) - 1)); [done|].
  destruct (Z.eqb_spec (len (images s)) 1); [done|].
  destruct (at_index (images s) i) as [x|] eqn:Hx; [|done].
  apply at_index_range in Hx as Hr. cbn.
  assert (splice1 i (images s) <> []) as Hne.
  { intros E%len_nil_iff. rewrite len_splice1 in E by done. lia. }
  unfold nonempty, write_images, images in *.
  destruct (focus_images s); cbn; done.
Qed.

(** ** Recovery from a failed preparation *)

(** C1, as amended. For every collection and every index from 1 on that
    holds an item, [imageFailed] for that item returns; the collection is
    the old one without the item at that index, so one shorter; the note
    ["Missing <url>"] is appended to the ledger; [previousShow] is cleared,
    no timer is held, and the display surface is asked to prepare the item
    at the wrapped index: 0 if the failed index equals the new length,
    else the failed index. *)
Theorem imageFailed_evicts_and_preloads
    (s : PhotoSlideshow) (image : Image) (index : Z) :
  at_index (images s) index = Some image ->
  1 <= index ->
  exists s' item,
    let nextIndex := if index =? len (images s') then 0 else index in
    imageFailed image index s = Returned s'
    /\ images s' = delete (Z.to_nat index) (images s)
    /\ len (images s') = len (images s) - 1
    /\ notes s' = notes s ++ [String.append "Missing " (url image)]
    /\ previousShow s' = None
    /\ showNextTimeout s' = None
    /\ at_index (images s') nextIndex = Some item
    /\ pending s' = Some (item, nextIndex)
    /\ Viewer.calls (viewer s')
       = Viewer.calls (viewer s) ++ [Viewer.Preload item nextIndex].
Proof.
  intros Hat Hpos. apply at_index_range in Hat as Hr.
  set (s1 := with_notes (notes s ++ [String.append "Missing " (url image)]) s).
  set (l' := delete (Z.to_nat index) (images s)).
  set (s2 := showPreloadingImageImmediatly (write_images l' s1)).
  assert (images s2 = l') as Himg.
  { unfold s2, showPreloadingImageImmediatly, with_previousShow, images.
    cbn. unfold s1, write_images. cbn. by destruct (focus_images s). }
  assert (len l' = len (images s) - 1) as Hlen.
  { unfold l'. rewrite <- splice1_in_range by lia. apply len_splice1. lia. }
  set (nextIndex := if index =? len l' then 0 else index).
  destruct (at_index_in_range l' nextIndex) as [item Hitem].
  { unfold nextIndex. destruct (Z.eqb_spec index (len l')); lia. }
  assert (imageFailed image index s = preload (Some nextIndex) s2) as Hrun.
  { unfold imageFailed. fold s1.
    rewrite (removeImage_removes s1 index)
      by (change (images s1) with (images s); lia).
    unfold andThen. cbv zeta. change (images s1) with (images s). fold l'.
    rewrite images_write_images. reflexivity. }
  rewrite <- Himg in Hitem.
  rewrite (preload_in_range s2 nextIndex item Hitem) in Hrun.
  eexists _, item. cbv zeta. split; [exact Hrun|].
  assert (images (stopTimeout s2) = l') as Himg'
    by (by rewrite images_stopTimeout).
  change (images (with_viewer ?v ?x)) with (images x).
  rewrite Himg'. fold nextIndex.
  split; [done|]. split; [done|].
  assert (stopTimeout_fields :
    notes (stopTimeout s2) = notes s2
    /\ previousShow (stopTimeout s2) = previousShow s2
    /\ viewer (stopTimeout s2) = viewer s2).
  { unfold stopTimeout. by destruct (showNextTimeout s2). }
  destruct stopTimeout_fields as (Hn & Hp & Hv).
  assert (notes s2 = notes s ++ [String.append "Missing " (url image)]
          /\ previousShow s2 = None /\ viewer s2 = viewer s) as (Hn2 & Hp2 & Hv2).
  { unfold s2, s1, write_images. cbn. by destruct (focus_images s). }
  split; [cbn; congruence|]. split; [cbn; congruence|].
  split; [cbn; apply stopTimeout_clears|].
  split; [by rewrite <- Himg|].
  split; [done|]. cbn. by rewrite Hv, Hv2.
Qed.

Lemma imageFailed_evicts_and_preloads_witness :
  exists s' item,
    let s := state_of (configLoaded [A; B; C] 1000) in
    let nextIndex := if 1 =? len (images s') then 0 else 1 in
    imageFailed B 1 s = Returned s'
    /\ images s' = delete (Z.to_nat 1) (images s)
    /\ len (images s') = len (images s) - 1
    /\ notes s' = notes s ++ [String.append "Missing " (url B)]
    /\ previousShow s' = None
    /\ showNextTimeout s' = None
    /\ at_index (images s') nextIndex = Some item
    /\ pending s' = Some (item, nextIndex)
    /\ Viewer.calls (viewer s')
       = Viewer.calls (viewer s) ++ [Viewer.Preload item nextIndex].
Proof.
  apply (imageFailed_evicts_and_preloads
           (state_of (configLoaded [A; B; C] 1000)) B 1).
  - reflexivity.
  - lia.
Defined.

(** C1, as stated, fails where the collection holds one image: the handler
    runs for the item at index 0 and the size stays 1. *)
Lemma imageFailed_keeps_the_last_image :
  let s := state_of (configLoaded [A] 1000) in
  at_index (images s) 0 = Some A
  /\ len (images s) = 1
  /\ len (images (state_of (imageFailed A 0 s))) = 1
  /\ len (images (state_of (imageFailed A 0 s))) <> len (images s) - 1.
Proof. cbv zeta. repeat split; vm_compute; congruence. Qed.

(** ** Deleting the current image *)

(** C3 at its own input. With [A] of [A; B; C] on screen and [B] waiting
    for its timer, the delete key cancels the timer and clears
    [previousShow], but removes nothing, and the preload is issued for
    index 0, which still holds [A]. *)
Theorem removeCurrent_at_first_index_removes_nothing :
  exists s',
    Viewer.showIndex (viewer (waiting_for_B 1000)) = Some 0
    /\ images (waiting_for_B 1000) = [A; B; C]
    /\ handle Key_del (waiting_for_B 1000) = Returned s'
    /\ images s' = [A; B; C]
    /\ images s' <> [B; C]
    /\ pending s' = Some (A, 0)
    /\ pending s' <> Some (B, 0)
    /\ previousShow s' = None
    /\ timers s' = [].
Proof.
  eexists. do 2 (split; [reflexivity|]). split; [vm_compute; reflexivity|].
  repeat split; vm_compute; congruence.
Qed.

(** The older slideshow does remove the first image: there the delete key
    leaves [B; C] and asks for the url of [B] at index 0. *)
Lemma legacy_delete_at_first_index_removes_it :
  exists s',
    Legacy.keydown 46 (legacy_showing [A; B; C] 0 (Some 0) 1000)
    = Legacy.Returned s'
    /\ Legacy.images s' = [B; C]
    /\ Legacy.preloadIndex s' = Some 0
    /\ Legacy.preloader_src s' = Some (url B)
    /\ Legacy.previousShow s' = None.
Proof. eexists. repeat split. Qed.

(** From index 1 on, [removeCurrent] does remove the image on screen; the
    preload is then issued for the same index, which raises when the last
    image was removed. *)
Lemma removeCurrent_removes_later_index s i :
  Viewer.showIndex (viewer s) = Some i ->
  1 <= i < len (images s) ->
  images (state_of (removeCurrent s)) = delete (Z.to_nat i) (images s).
Proof.
  intros Hshown Hi. unfold removeCurrent.
  replace (Viewer.showIndex (viewer (stopTimeout s))) with (Some i)
    by (unfold stopTimeout; destruct (showNextTimeout s); by rewrite <- Hshown).
  rewrite removeImage_removes by (by rewrite images_stopTimeout).
  unfold andThen. cbv zeta. rewrite images_preload.
  change (images (showPreloadingImageImmediatly ?x)) with (images x).
  by rewrite images_write_images, images_stopTimeout.
Qed.

Lemma removeCurrent_at_last_index_raises :
  exists s',
    removeCurrent (showing [A; B; C] 2 1000) = Threw s'
    /\ images s' = [A; B].
Proof. eexists. split; reflexivity. Qed.

(** ** Rate control *)

Lemma speedUp_at_floor s : timeout s <= MINIMUM_TIMEOUT -> speedUp s = s.
Proof.
  intros H. unfold speedUp.
  by destruct (Z.leb_spec (timeout s) MINIMUM_TIMEOUT); [|lia].
Qed.

Lemma speedUp_above_floor s :
  MINIMUM_TIMEOUT < timeout s -> timeout (speedUp s) = timeout s - 500.
Proof.
  intros H. unfold speedUp.
  by destruct (Z.leb_spec (timeout s) MINIMUM_TIMEOUT); [lia|].
Qed.

(** A timeout on the grid of the step, as the default of 5000 ms is, stays
    at or above the floor however often it is sped up. *)
Lemma speedUp_keeps_floor_on_grid (n : nat) s k :
  1 <= k -> timeout s = 500 * k ->
  MINIMUM_TIMEOUT <= timeout (Nat.iter n speedUp s).
Proof.
  intros Hk Ht.
  assert (exists k', 1 <= k' /\ timeout (Nat.iter n speedUp s) = 500 * k')
    as (k' & Hk' & ->); [|unfold MINIMUM_TIMEOUT; lia].
  induction n as [|n (k' & Hk' & IH)]; [by exists k|]. rewrite Nat.iter_succ.
  destruct (Z.le_gt_cases (timeout (Nat.iter n speedUp s)) MINIMUM_TIMEOUT).
  - rewrite speedUp_at_floor by done. eauto.
  - rewrite speedUp_above_floor by done. exists (k' - 1).
    unfold MINIMUM_TIMEOUT in *. lia.
Qed.


(** C2 at a timeout between the floor and twice the floor. A configured
    timeout of 700 ms is above [MINIMUM_TIMEOUT], so one [speedUp]
    subtracts the step and leaves 200 ms, below the floor; every later
    [speedUp] is a no-op there. The plus key of the older slideshow does
    the same. *)
Theorem speedUp_from_700_goes_below_minimum :
  let s := state_of (configLoaded [A; B; C] 700) in
  timeout s = 700
  /\ timeout (speedUp s) = 200
  /\ timeout (speedUp s) < MINIMUM_TIMEOUT
  /\ (forall n, timeout (Nat.iter (S n) speedUp s) = 200)
  /\ Legacy.timeout
       (Legacy.state_of (Legacy.keydown 61 (legacy_showing [A; B; C] 0 None 700)))
     = 200.
Proof.
  cbv zeta. repeat split.
  intros n. induction n as [|n IH]; [reflexivity|].
  rewrite Nat.iter_succ.
  rewrite speedUp_at_floor; [exact IH|]. rewrite IH. unfold MINIMUM_TIMEOUT. lia.
Qed.

(** ** Pause and resume *)

(** Resuming asks for the image after the one on screen. *)
Lemma togglePause_resume_is_next s :
  paused s = true ->
  togglePause s = next s >>> (fun s => Returned (with_paused false s)).
Proof. unfold togglePause. by intros ->. Qed.

Lemma previousShow_stopTimeout s : previousShow (stopTimeout s) = previousShow s.
Proof. unfold stopTimeout. by destruct (showNextTimeout s). Qed.

Lemma previousShow_preload index s :
  previousShow (state_of (preload index s)) = previousShow s.
Proof.
  unfold preload.
  destruct index as [i|]; [destruct (at_index _ i)|];
    cbn; apply previousShow_stopTimeout.
Qed.

(** Resuming leaves [previousShow] as the pause found it. *)
Lemma togglePause_resume_keeps_previousShow s :
  paused s = true ->
  previousShow (state_of (togglePause s)) = previousShow s.
Proof.
  intros Hp. rewrite togglePause_resume_is_next by done. unfold next.
  pose proof (previousShow_preload
    (Some (if Viewer.nextIndex (viewer s) >=? len (images s) then 0
           else Viewer.nextIndex (viewer s))) s) as H.
  cbv zeta. destruct (preload _ s); exact H.
Qed.

(** C4 at a pause of 100 ms. [A] was shown at time 0 with a timeout of
    1000 ms and the slideshow was paused while [B] waited. Resuming
    preloads index 1 again, but [previousShow] still holds time 0; when
    [B] is ready at time 300 it is not shown: a timer for the remaining
    700 ms is set. *)
Theorem resume_keeps_stale_previousShow :
  exists s' s'' h,
    paused (paused_before_B 1000) = true
    /\ previousShow (paused_before_B 1000) = Some 0
    /\ handle Key_space (paused_before_B 1000) = Returned s'
    /\ paused s' = false
    /\ pending s' = Some (B, 1)
    /\ previousShow s' = Some 0
    /\ previousShow s' <> None
    /\ handle (ImageLoaded 300 B 1) s' = Returned s''
    /\ Viewer.showIndex (viewer s'') = Some 0
    /\ Viewer.calls (viewer s'') = Viewer.calls (viewer s')
    /\ timers s'' = [{| timer_id := h; timer_delay := 700 |}].
Proof.
  eexists _, _, _. do 2 (split; [reflexivity|]).
  split; [vm_compute; reflexivity|].
  do 3 (split; [reflexivity|]). split; [vm_compute; congruence|].
  split; [vm_compute; reflexivity|].
  do 2 (split; [reflexivity|]). vm_compute. reflexivity.
Qed.

(** The older slideshow clears [previousShow] when the space key resumes,
    and preloads the index on screen. *)
Lemma legacy_resume_clears_previousShow s :
  Legacy.showNextTimeout s = None ->
  Legacy.previousShow (Legacy.state_of (Legacy.keydown 32 s)) = None
  /\ Legacy.keydown 32 s
     = Legacy.preload (Legacy.index s) (Legacy.showPreloadingImageImmediatly s).
Proof.
  intros Hidle. cbn. rewrite Hidle. split; [|done].
  unfold Legacy.preload, Legacy.stopTimeout. cbn. rewrite Hidle.
  by destruct (at_value _ _).
Qed.

(** ** Index advancement *)

Lemma next_index_mod (n i : Z) :
  0 <= i < n -> next_index n i = (i + 1) mod n.
Proof.
  intros Hi. unfold next_index. cbv zeta.
  destruct (Z.geb_spec (i + 1) n).
  - replace (i + 1) with n by lia. by rewrite Z.mod_same by lia.
  - by rewrite Z.mod_small by lia.
Qed.

Lemma next_index_range (n i : Z) : 0 <= i < n -> 0 <= next_index n i < n.
Proof.
  intros Hi. unfold next_index. cbv zeta. destruct (Z.geb_spec (i + 1) n); lia.
Qed.

Lemma previous_index_range (n i : Z) :
  0 <= i < n -> 0 <= previous_index n i < n.
Proof.
  intros Hi. unfold previous_index. cbv zeta.
  destruct (Z.ltb_spec (i - 1) 0); lia.
Qed.

Lemma iter_next_index (n i : Z) (k : nat) :
  0 <= i < n -> Nat.iter k (next_index n) i = (i + Z.of_nat k) mod n.
Proof.
  intros Hi. induction k as [|k IH].
  - cbn. rewrite Z.add_0_r. by rewrite Z.mod_small.
  - rewrite Nat.iter_succ, IH.
    rewrite next_index_mod by (apply Z.mod_pos_bound; lia).
    rewrite Zplus_mod_idemp_l. f_equal. lia.
Qed.

Lemma next_preloads_next_index s i :
  Viewer.showIndex (viewer s) = Some i ->
  next s = preload (Some (next_index (len (images s)) i)) s.
Proof. intros H. unfold next, Viewer.nextIndex, next_index. by rewrite H. Qed.

Lemma previous_preloads_previous_index s i :
  Viewer.showIndex (viewer s) = Some i ->
  previous s = preload (Some (previous_index (len (images s)) i)) s.
Proof.
  intros H. unfold previous, Viewer.previousIndex, previous_index. by rewrite H.
Qed.

(** The older slideshow computes the same two indices. *)
Lemma legacy_next_preloads_next_index s i :
  Legacy.index s = Some i ->
  Legacy.next s
  = Legacy.preload (Some (next_index (len (Legacy.images s)) i)) s
  /\ Legacy.previous s
     = Legacy.preload (Some (previous_index (len (Legacy.images s)) i)) s.
Proof.
  intros H. unfold Legacy.next, Legacy.previous, next_index, previous_index.
  rewrite H. cbn [Legacy.to_number]. cbv zeta. split; do 2 f_equal.
  - destruct (Z.ltb_spec i (len (Legacy.images s) - 1)),
      (Z.geb_spec (i + 1) (len (Legacy.images s))); lia.
  - destruct (Z.ltb_spec i 1), (Z.ltb_spec (i - 1) 0); lia.
Qed.

(** C8. For every collection and every index [i] into it, [next()] with
    the image at [i] on screen preloads [next_index], which is [i + 1] or 0
    when that equals the length, and [previous()] preloads
    [previous_index], which is [i - 1] or the length minus 1 when that is
    negative, in the refactored and in the older slideshow alike;
    [next_index] applied length times leads back to [i], and
    [previous_index] undoes [next_index] and is undone by it. *)
Theorem next_index_cycles
    (s : PhotoSlideshow) (old : Legacy.PhotoSlideshow) (i : Z) :
  Viewer.showIndex (viewer s) = Some i ->
  Legacy.index old = Some i ->
  Legacy.images old = images s ->
  0 <= i < len (images s) ->
  let n := len (images s) in
  next s = preload (Some (next_index n i)) s
  /\ previous s = preload (Some (previous_index n i)) s
  /\ Legacy.next old = Legacy.preload (Some (next_index n i)) old
  /\ Legacy.previous old = Legacy.preload (Some (previous_index n i)) old
  /\ next_index n i = (if i + 1 =? n then 0 else i + 1)
  /\ previous_index n i = (if i - 1 <? 0 then n - 1 else i - 1)
  /\ Nat.iter (Z.to_nat n) (next_index n) i = i
  /\ previous_index n (next_index n i) = i
  /\ next_index n (previous_index n i) = i.
Proof.
  intros Hshown Hold Himgs Hi n. fold n in Hi.
  split; [by apply next_preloads_next_index|].
  split; [by apply previous_preloads_previous_index|].
  destruct (legacy_next_preloads_next_index old i Hold) as [Hn Hp].
  rewrite Himgs in Hn, Hp. split; [exact Hn|]. split; [exact Hp|].
  split.
  { unfold next_index. cbv zeta.
    destruct (Z.geb_spec (i + 1) n), (Z.eqb_spec (i + 1) n); lia. }
  split; [done|]. split.
  { rewrite iter_next_index by done. rewrite Z2Nat.id by lia.
    replace (i + n) with (i + 1 * n) by lia.
    rewrite Z.mod_add by lia. by apply Z.mod_small. }
  unfold next_index, previous_index. cbv zeta. split.
  - destruct (Z.geb_spec (i + 1) n).
    + destruct (Z.ltb_spec (0 - 1) 0); lia.
    + destruct (Z.ltb_spec (i + 1 - 1) 0); lia.
  - destruct (Z.ltb_spec (i - 1) 0).
    + destruct (Z.geb_spec (n - 1 + 1) n); lia.
    + destruct (Z.geb_spec (i - 1 + 1) n); lia.
Qed.

Lemma next_index_cycles_witness :
  let s := showing [A; B; C] 2 1000 in
  let old := legacy_showing [A; B; C] 2 None 1000 in
  let n := len (images s) in
  next s = preload (Some (next_index n 2)) s
  /\ previous s = preload (Some (previous_index n 2)) s
  /\ Legacy.next old = Legacy.preload (Some (next_index n 2)) old
  /\ Legacy.previous old = Legacy.preload (Some (previous_index n 2)) old
  /\ next_index n 2 = (if 2 + 1 =? n then 0 else 2 + 1)
  /\ previous_index n 2 = (if 2 - 1 <? 0 then n - 1 else 2 - 1)
  /\ Nat.iter (Z.to_nat n) (next_index n) 2 = 2
  /\ previous_index n (next_index n 2) = 2
  /\ next_index n (previous_index n 2) = 2.
Proof.
  apply (next_index_cycles (showing [A; B; C] 2 1000)
           (legacy_showing [A; B; C] 2 None 1000) 2).
  - reflexivity.
  - reflexivity.
  - reflexivity.
  - vm_compute. split; congruence.
Defined.

(** ** The note ledger *)

Lemma findIndex_url_present (u : string) (l : list string) :
  In u l -> (findIndex (fun v => String.eqb v u) l =? -1) = false.
Proof.
  intros Hin. apply Z.eqb_neq.
  pose proof (findIndex_found (fun v => String.eqb v u) l u Hin
                (String.eqb_refl u)). lia.
Qed.

Lemma findIndex_url_absent (u : string) (l : list string) :
  ~ In u l -> (findIndex (fun v => String.eqb v u) l =? -1) = true.
Proof.
  intros Hout. apply Z.eqb_eq, findIndex_absent. intros v Hv.
  apply String.eqb_neq. by intros ->.
Qed.

Lemma addNote_present s i image :
  Viewer.showIndex (viewer s) = Some i ->
  at_index (images s) i = Some image ->
  In (url image) (notes s) ->
  addNote s = Returned s.
Proof.
  intros Hshown Hat Hin. unfold addNote.
  by rewrite Hshown, Hat, findIndex_url_present.
Qed.

Lemma addNote_absent s i image :
  Viewer.showIndex (viewer s) = Some i ->
  at_index (images s) i = Some image ->
  ~ In (url image) (notes s) ->
  addNote s = Returned (with_notes (notes s ++ [url image]) s).
Proof.
  intros Hshown Hat Hout. unfold addNote.
  by rewrite Hshown, Hat, findIndex_url_absent.
Qed.

Lemma notes_stopTimeout s : notes (stopTimeout s) = notes s.
Proof. unfold stopTimeout. by destruct (showNextTimeout s). Qed.

Lemma notes_preload index s : notes (state_of (preload index s)) = notes s.
Proof.
  unfold preload.
  destruct index as [i|]; [destruct (at_index _ i)|]; cbn; apply notes_stopTimeout.
Qed.

Lemma notes_removeImage index s :
  notes (state_of (removeImage index s)) = notes s.
Proof.
  unfold removeImage. destruct index as [i|]; [|done].
  destruct (i =? 0); [done|]. destruct (i >? len (images s) - 1); [done|].
  destruct (len (images s) =? 1); [done|].
  destruct (at_index (images s) i); [|done].
  unfold write_images. by destruct (focus_images s).
Qed.

(** A failure always leaves its note, whatever the ledger holds and whether
    or not the handler raises later. *)
Lemma imageFailed_appends_note image index s :
  notes (state_of (imageFailed image index s))
  = notes s ++ [String.append "Missing " (url image)].
Proof.
  unfold imageFailed. cbv zeta.
  set (s1 := with_notes _ s).
  pose proof (notes_removeImage (Some index) s1) as Hrem.
  destruct (removeImage (Some index) s1) as [s2|s2]; unfold andThen.
  - rewrite notes_preload. exact Hrem.
  - exact Hrem.
Qed.

(** C9. With an image on screen whose url is [u]: [addNote] leaves the
    slideshow as it is when [u] is in the ledger and appends [u] at the end
    otherwise; [addNote] twice is [addNote] once, and from a ledger without
    [u] it leaves [u] there exactly once; [resetNotes] empties the ledger;
    the failure note ["Missing u"] differs from [u], is appended by
    [imageFailed] whatever the ledger holds, and its presence does not keep
    [addNote] from appending [u]. *)
Theorem note_ledger_laws (s : PhotoSlideshow) (i : Z) (image : Image) :
  Viewer.showIndex (viewer s) = Some i ->
  at_index (images s) i = Some image ->
  let u := url image in
  let missing := String.append "Missing " u in
  (In u (notes s) -> addNote s = Returned s)
  /\ (~ In u (notes s) ->
      addNote s = Returned (with_notes (notes s ++ [u]) s))
  /\ (addNote s >>> addNote) = addNote s
  /\ (~ In u (notes s) ->
      count_occ string_dec (notes (state_of (addNote s >>> addNote))) u = 1%nat)
  /\ notes (resetNotes s) = []
  /\ missing <> u
  /\ notes (state_of (imageFailed image i s)) = notes s ++ [missing]
  /\ (In missing (notes s) -> ~ In u (notes s) ->
      notes (state_of (addNote s)) = notes s ++ [u]).
Proof.
  intros Hshown Hat u missing.
  assert (Hpresent : In u (notes s) -> addNote s = Returned s)
    by exact (addNote_present s i image Hshown Hat).
  assert (Habsent : ~ In u (notes s) ->
            addNote s = Returned (with_notes (notes s ++ [u]) s))
    by exact (addNote_absent s i image Hshown Hat).
  assert (Htwice : (addNote s >>> addNote) = addNote s).
  { destruct (in_dec string_dec u (notes s)) as [Hin|Hout].
    - rewrite Hpresent by done. cbn. by apply Hpresent.
    - rewrite Habsent by done. cbn.
      apply (addNote_present _ i image); [done..|].
      cbn. apply in_or_app. right. by left. }
  split; [done|]. split; [done|]. split; [done|]. split.
  { intros Hout. rewrite Htwice, Habsent by done. cbn.
    rewrite count_occ_app. cbn. destruct (string_dec u u); [|done].
    apply (count_occ_not_In string_dec) in Hout. rewrite Hout. done. }
  split; [done|]. split; [apply missing_note_is_not_the_url|].
  split; [apply imageFailed_appends_note|].
  intros _ Hout. by rewrite Habsent.
Qed.

Lemma note_ledger_laws_witness :
  let s := showing [A; B; C] 0 1000 in
  let u := url A in
  let missing := String.append "Missing " u in
  (In u (notes s) -> addNote s = Returned s)
  /\ (~ In u (notes s) ->
      addNote s = Returned (with_notes (notes s ++ [u]) s))
  /\ (addNote s >>> addNote) = addNote s
  /\ (~ In u (notes s) ->
      count_occ string_dec (notes (state_of (addNote s >>> addNote))) u = 1%nat)
  /\ notes (resetNotes s) = []
  /\ missing <> u
  /\ notes (state_of (imageFailed A 0 s)) = notes s ++ [missing]
  /\ (In missing (notes s) -> ~ In u (notes s) ->
      notes (state_of (addNote s)) = notes s ++ [u]).
Proof.
  apply (note_ledger_laws (showing [A; B; C] 0 1000) 0 A); reflexivity.
Defined.

(** ** A prepared image: show or wait *)

Lemma viewer_stopTimeout s : viewer (stopTimeout s) = viewer s.
Proof. unfold stopTimeout. by destruct (showNextTimeout s). Qed.

(** [showPreloaded] asks the display surface to show the prepared image,
    stamps the time and leaves the browser's timers alone. *)
Lemma showPreloaded_shows now s :
  let o := showPreloaded now s in
  displays_at_once s o
  /\ Viewer.showIndex (viewer (state_of o))
     = match pending s with
       | Some (_, i) => Some i
       | None => Viewer.showIndex (viewer s)
       end
  /\ timers (state_of o) = timers s
  /\ showNextTimeout (state_of o) = None
  /\ previousShow (state_of o) = Some now.
Proof.
  cbv zeta. unfold showPreloaded, next, preload, displays_at_once, pending.
  cbv zeta. cbn [stopTimeout showNextTimeout with_timer_state with_viewer
                 with_previousShow].
  match goal with |- context [at_index ?l ?k] => destruct (at_index l k) end;
    cbn [state_of viewer with_viewer with_previousShow with_timer_state
         Viewer.calls Viewer.preload Viewer.showPreloaded Viewer.showIndex
         timers showNextTimeout previousShow].
  - split; [eexists; by rewrite <- app_assoc|].
    destruct (Viewer.preloading (viewer s)) as [[? ?]|]; done.
  - split; [by exists []|].
    destruct (Viewer.preloading (viewer s)) as [[? ?]|]; done.
Qed.

(** The advance scenario of the specification: [A] is shown as soon as it
    is prepared, [B] is prepared 200 ms later and waits 800 ms, its timer
    fires and [C] is requested. *)
Example advance_scenario :
  let s := run [TimerFired 1000 1%positive] (waiting_for_B 1000) in
  timers (waiting_for_B 1000)
  = [{| timer_id := 1%positive; timer_delay := 800 |}]
  /\ Viewer.showIndex (viewer (waiting_for_B 1000)) = Some 0
  /\ Viewer.showIndex (viewer s) = Some 1
  /\ Viewer.calls (viewer s)
     = [Viewer.Preload A 0; Viewer.ShowPreloaded; Viewer.Preload B 1;
        Viewer.ShowPreloaded; Viewer.Preload C 2]
  /\ previousShow s = Some 1000
  /\ timers s = [].
Proof. cbv zeta. repeat split. Qed.

(** C5. For every call of [imageLoaded] in a state whose live timers are
    the one the slideshow holds: without [previousShow] the prepared image
    is shown at once; otherwise, with remainder = timeout - (now -
    previousShow), it is shown at once when the remainder is negative, and
    else the handler leaves exactly one live timer, of exactly the
    remainder, and shows nothing until that timer fires, which shows the
    prepared image. *)
Theorem imageLoaded_shows_or_waits
    (now : Z) (image : Image) (index : Z) (s : PhotoSlideshow) :
  timers_tracked s ->
  match previousShow s with
  | None => shown_immediately s (imageLoaded now image index s)
  | Some shown =>
      let remainder := timeout s - (now - shown) in
      if remainder <? 0
      then shown_immediately s (imageLoaded now image index s)
      else waits remainder s (imageLoaded now image index s)
  end.
Proof.
  intros Htracked.
  assert (Hnow : shown_immediately s (showPreloaded now (stopTimeout s))).
  { destruct (showPreloaded_shows now (stopTimeout s)) as (Hd & Hi & Ht & Hh & _).
    unfold shown_immediately, displays_at_once, pending in *.
    rewrite viewer_stopTimeout in Hd, Hi. rewrite stopTimeout_tracked in Ht by done.
    done. }
  unfold imageLoaded. cbv zeta. rewrite previousShow_stopTimeout.
  destruct (previousShow s) as [shown|]; [|exact Hnow].
  replace (timeout (stopTimeout s)) with (timeout s)
    by (unfold stopTimeout; by destruct (showNextTimeout s)).
  destruct (timeout s - (now - shown) <? 0); [exact Hnow|].
  set (remainder := timeout s - (now - shown)).
  exists (setTimeout remainder (stopTimeout s)), (timerSeq (stopTimeout s)).
  split; [done|]. split; [apply viewer_stopTimeout|].
  split; [cbn; by rewrite stopTimeout_tracked|]. split; [done|].
  intros later. cbn [handle]. unfold is_live.
  cbn [timers setTimeout with_timer_state]. rewrite stopTimeout_tracked by done.
  cbn [app existsb timer_id]. rewrite Pos.eqb_refl. cbn [orb].
  unfold clearTimeout. cbn [List.filter timer_id]. rewrite Pos.eqb_refl.
  cbn [negb].
  match goal with |- shown_immediately ?s1 (showPreloaded later ?s2) =>
    destruct (showPreloaded_shows later s2) as (Hd & Hi & Ht & Hh & _)
  end.
  unfold shown_immediately, displays_at_once, pending in *. done.
Qed.

Lemma imageLoaded_shows_or_waits_witness :
  waits 800 (state_of (handle (ImageLoaded 0 A 0)
                         (state_of (configLoaded [A; B; C] 1000))))
    (imageLoaded 200 B 1
       (state_of (handle (ImageLoaded 0 A 0)
                    (state_of (configLoaded [A; B; C] 1000))))).
Proof.
  apply (imageLoaded_shows_or_waits 200 B 1
           (state_of (handle (ImageLoaded 0 A 0)
                        (state_of (configLoaded [A; B; C] 1000))))).
  intros t Ht. vm_compute in Ht. destruct Ht.
Defined.

(** The older slideshow takes the same decision, with [showNext] in the
    place of [showPreloaded]. *)
Lemma legacy_imageLoaded_shows_or_waits now s image :
  at_value (Legacy.images s) (Legacy.preloadIndex s) = Some image ->
  Legacy.imageLoaded now s
  = match Legacy.previousShow s with
    | None => Legacy.showNext now s
    | Some shown =>
        if Legacy.timeout s - (now - shown) <? 0 then Legacy.showNext now s
        else Legacy.Returned
               (Legacy.setTimeout (Legacy.timeout s - (now - shown)) s)
    end.
Proof. intros H. unfold Legacy.imageLoaded. by rewrite H. Qed.

(** ** Focus mode *)

(** The path that the code cuts from a url with a slash is the prefix of
    the specification without its closing slash. *)
Lemma spec_path_prefix_is_path_and_slash (u : string) :
  has_slash u = true ->
  spec_path_prefix u = String.append (strip_last_segment u) "/".
Proof.
  induction u as [|c r IH]; [done|]. intros Hs.
  cbn [spec_path_prefix strip_last_segment]. rewrite Hs.
  cbn [has_slash] in Hs. destruct (has_slash r) eqn:Hr.
  - rewrite andb_false_r, IH by done. done.
  - rewrite orb_false_r in Hs. rewrite Hs. cbn [andb negb].
    apply Ascii.eqb_eq in Hs as ->.
    destruct r as [|c' r']; [done|]. cbn [spec_path_prefix]. by rewrite Hr.
Qed.


Lemma currentImage_in_images s current :
  currentImage s = Some current -> In current (images s).
Proof.
  unfold currentImage. destruct (Viewer.showIndex (viewer s)) as [i|]; [|done].
  intros [_ H]%at_index_Some. apply list_elem_of_In.
  apply list_elem_of_lookup. eauto.
Qed.

(** C6, as amended. For every slideshow that is not in focus mode and has
    a current image, [toggleFocusMode] returns with the configured
    collection untouched and the active set equal to the configured images
    whose url starts with the path of the current url: its characters
    before the final slash, or all of it when it has no slash. The current
    image is among them. A slideshow without a current image is left as it
    is. *)
Theorem toggleFocusMode_enters_by_path
    (s : PhotoSlideshow) (current : Image) (idle : PhotoSlideshow) :
  inFocusMode s = false ->
  currentImage s = Some current ->
  currentImage idle = None ->
  let path := strip_last_segment (url current) in
  (exists s',
     toggleFocusMode s = Returned s'
     /\ images s'
        = List.filter (fun i => startsWith (url i) path) (config_images s)
     /\ config_images s' = config_images s
     /\ inFocusMode s' = true
     /\ In current (images s'))
  /\ (has_slash (url current) = true ->
      String.append path "/" = spec_path_prefix (url current))
  /\ (has_slash (url current) = false -> path = url current)
  /\ toggleFocusMode idle = Returned idle.
Proof.
  intros Hfocus Hcur Hidle path.
  assert (focus_images s = None) as Hnone
    by (unfold inFocusMode in Hfocus; by destruct (focus_images s)).
  split; [|split; [|split]].
  - set (l := List.filter (fun i => startsWith (url i) path) (config_images s)).
    set (s1 := enter_focus l
                 (with_viewer (Viewer.cancelPreload (viewer (stopTimeout s)))
                    (stopTimeout s))).
    assert (images s1 = l) as Himg by done.
    assert (In current l) as Hin.
    { apply filter_In. split.
      - apply currentImage_in_images in Hcur. unfold images in Hcur.
        by rewrite Hnone in Hcur.
      - apply strip_last_segment_prefix. }
    set (currentIndex := findIndex (fun i => String.eqb (url i) (url current)) l).
    assert (0 <= currentIndex < len l) as Hrange
      by (apply (findIndex_found _ l current Hin), String.eqb_refl).
    set (nextIndex := if currentIndex =? len l - 1 then 0 else currentIndex + 1).
    destruct (at_index_in_range l nextIndex) as [item Hitem].
    { unfold nextIndex. destruct (Z.eqb_spec currentIndex (len l - 1)); lia. }
    assert (toggleFocusMode s = preload (Some nextIndex) s1) as Hrun.
    { unfold toggleFocusMode. rewrite Hcur. cbv zeta.
      replace (inFocusMode (with_viewer _ (stopTimeout s))) with false
        by (unfold inFocusMode, stopTimeout; cbn;
            destruct (showNextTimeout s); cbn; by rewrite Hnone).
      replace (config_images (with_viewer _ (stopTimeout s)))
        with (config_images s)
        by (unfold stopTimeout; by destruct (showNextTimeout s)).
      done. }
    rewrite <- Himg in Hitem. rewrite (preload_in_range s1 nextIndex item Hitem) in Hrun.
    eexists. split; [exact Hrun|].
    assert (focus_images (stopTimeout s1) = Some l
            /\ config_images (stopTimeout s1) = config_images s) as [Hf Hc].
    { destruct (arrays_stopTimeout s1) as [-> ->].
      split; [done|]. apply (arrays_stopTimeout s). }
    unfold images, inFocusMode. cbn. rewrite Hf, Hc. done.
  - intros Hs. symmetry. by apply spec_path_prefix_is_path_and_slash.
  - apply strip_last_segment_no_slash.
  - unfold toggleFocusMode. by rewrite Hidle.
Qed.

Lemma toggleFocusMode_enters_by_path_witness :
  let s := showing [image_of "a/b/c.jpg"; image_of "a/bc/d.jpg";
                    image_of "z/e.jpg"] 0 1000 in
  let current := image_of "a/b/c.jpg" in
  let idle := state_of (configLoaded [A; B; C] 1000) in
  let path := strip_last_segment (url current) in
  (exists s',
     toggleFocusMode s = Returned s'
     /\ images s'
        = List.filter (fun i => startsWith (url i) path) (config_images s)
     /\ config_images s' = config_images s
     /\ inFocusMode s' = true
     /\ In current (images s'))
  /\ (has_slash (url current) = true ->
      String.append path "/" = spec_path_prefix (url current))
  /\ (has_slash (url current) = false -> path = url current)
  /\ toggleFocusMode idle = Returned idle.
Proof.
  apply (toggleFocusMode_enters_by_path
           (showing [image_of "a/b/c.jpg"; image_of "a/bc/d.jpg";
                     image_of "z/e.jpg"] 0 1000)
           (image_of "a/b/c.jpg")
           (state_of (configLoaded [A; B; C] 1000))); reflexivity.
Defined.


(** C6, as stated, fails when another directory's name continues the name
    of the reference image's directory: with [a/b/c.jpg] on screen, focus
    mode keeps [a/bc/d.jpg], whose url does not start with [a/b/]. *)
Lemma focus_keeps_image_outside_directory :
  let full := [image_of "a/b/c.jpg"; image_of "a/bc/d.jpg";
               image_of "z/e.jpg"] in
  let s := showing full 0 1000 in
  currentImage s = Some (image_of "a/b/c.jpg")
  /\ inFocusMode s = false
  /\ spec_path_prefix "a/b/c.jpg" = "a/b/"
  /\ images (state_of (toggleFocusMode s))
     = [image_of "a/b/c.jpg"; image_of "a/bc/d.jpg"]
  /\ startsWith "a/bc/d.jpg" (spec_path_prefix "a/b/c.jpg") = false
  /\ spec_focus_set (image_of "a/b/c.jpg") full = [image_of "a/b/c.jpg"]
  /\ images (state_of (toggleFocusMode s))
     <> spec_focus_set (image_of "a/b/c.jpg") full.
Proof. cbv zeta. repeat split; vm_compute; congruence. Qed.

(** ** The collection is never emptied *)

Lemma same_arrays_refl s : same_arrays s s.
Proof. by split. Qed.

Lemma same_arrays_trans s1 s2 s3 :
  same_arrays s1 s2 -> same_arrays s2 s3 -> same_arrays s1 s3.
Proof. intros [H1 H2] [H3 H4]. split; congruence. Qed.

Lemma same_arrays_nonempty s s' : same_arrays s s' -> nonempty s -> nonempty s'.
Proof.
  intros [Hc Hf] [H1 H2]. unfold nonempty, images in *. by rewrite Hc, Hf.
Qed.

Lemma same_arrays_stopTimeout s : same_arrays s (stopTimeout s).
Proof. destruct (arrays_stopTimeout s). by split. Qed.

Lemma same_arrays_preload index s : same_arrays s (state_of (preload index s)).
Proof. apply preload_keeps_arrays. Qed.

Lemma same_arrays_next s : same_arrays s (state_of (next s)).
Proof. apply same_arrays_preload. Qed.

Lemma same_arrays_previous s : same_arrays s (state_of (previous s)).
Proof. apply same_arrays_preload. Qed.

Lemma same_arrays_showPreloaded now s :
  same_arrays s (state_of (showPreloaded now s)).
Proof.
  unfold showPreloaded. cbv zeta.
  eapply same_arrays_trans; [|apply same_arrays_next]. by split.
Qed.

Lemma same_arrays_imageLoaded now image index s :
  same_arrays s (state_of (imageLoaded now image index s)).
Proof.
  unfold imageLoaded. cbv zeta.
  eapply same_arrays_trans; [apply same_arrays_stopTimeout|].
  destruct (previousShow (stopTimeout s)) as [shown|];
    [destruct (_ <? 0)|]; try apply same_arrays_showPreloaded. by split.
Qed.

Lemma same_arrays_togglePause s : same_arrays s (state_of (togglePause s)).
Proof.
  unfold togglePause. destruct (paused s).
  - pose proof (same_arrays_next s) as H. by destruct (next s).
  - cbn. eapply same_arrays_trans; [apply same_arrays_stopTimeout|]. by split.
Qed.

Lemma same_arrays_addNote s : same_arrays s (state_of (addNote s)).
Proof.
  unfold addNote. destruct (Viewer.showIndex (viewer s)) as [i|]; [|by split].
  destruct (at_index (images s) i); [|by split].
  by destruct (negb _).
Qed.

Lemma removeCurrent_nonempty s :
  nonempty s -> nonempty (state_of (removeCurrent s)).
Proof.
  intros Hs. unfold removeCurrent. cbv zeta.
  pose proof (removeImage_nonempty (Viewer.showIndex (viewer (stopTimeout s)))
                (stopTimeout s)
                (same_arrays_nonempty _ _ (same_arrays_stopTimeout s) Hs)) as H.
  destruct (removeImage _ (stopTimeout s)) as [s1|s1]; [|exact H].
  unfold andThen. eapply same_arrays_nonempty; [apply same_arrays_preload|].
  exact H.
Qed.

Lemma imageFailed_nonempty image index s :
  nonempty s -> nonempty (state_of (imageFailed image index s)).
Proof.
  intros Hs. unfold imageFailed. cbv zeta.
  set (s1 := with_notes _ s).
  pose proof (removeImage_nonempty (Some index) s1 Hs) as H.
  destruct (removeImage (Some index) s1) as [s2|s2]; [|exact H].
  unfold andThen. eapply same_arrays_nonempty; [apply same_arrays_preload|].
  exact H.
Qed.

Lemma toggleFocusMode_nonempty s :
  nonempty s -> nonempty (state_of (toggleFocusMode s)).
Proof.
  intros [Hc Hi]. unfold toggleFocusMode.
  destruct (currentImage s) as [current|] eqn:Hcur; [|by split].
  cbv zeta. eapply same_arrays_nonempty; [apply same_arrays_preload|].
  set (s1 := with_viewer _ (stopTimeout s)).
  assert (same_arrays s s1) as [Hc1 Hf1]
    by (eapply same_arrays_trans; [apply same_arrays_stopTimeout|by split]).
  unfold inFocusMode. rewrite Hf1.
  destruct (arrays_stopTimeout s) as [_ Hcs].
  destruct (focus_images s) as [l|] eqn:Hf.
  - unfold nonempty, images, leave_focus. cbn. by rewrite ?Hc1, ?Hcs.
  - apply currentImage_in_images in Hcur. unfold images in Hcur.
    rewrite Hf in Hcur. unfold nonempty, images, enter_focus. cbn.
    rewrite ?Hc1, ?Hcs. split; [done|]. intros Hnil.
    assert (In current
              (List.filter
                 (fun i => startsWith (url i) (strip_last_segment (url current)))
                 (config_images s))) as Hin
      by (apply filter_In; split; [done|apply strip_last_segment_prefix]).
    by rewrite Hnil in Hin.
Qed.

Lemma handle_nonempty e s : nonempty s -> nonempty (state_of (handle e s)).
Proof.
  intros Hs. destruct e; cbn [handle state_of]; try done.
  - unfold toggleCaptions. by destruct (Viewer.showCaption (viewer s)).
  - by apply toggleFocusMode_nonempty.
  - by apply removeCurrent_nonempty.
  - unfold goToPrevious. cbv zeta.
    eapply same_arrays_nonempty; [apply same_arrays_previous|done].
  - eapply same_arrays_nonempty; [apply same_arrays_addNote|done].
  - unfold speedUp. by destruct (_ <=? _).
  - unfold goToNext. cbv zeta.
    eapply same_arrays_nonempty; [apply same_arrays_next|].
    eapply same_arrays_nonempty; [|apply Hs].
    eapply same_arrays_trans; [apply same_arrays_stopTimeout|by split].
  - eapply same_arrays_nonempty; [apply same_arrays_togglePause|done].
  - eapply same_arrays_nonempty; [apply same_arrays_imageLoaded|done].
  - by apply imageFailed_nonempty.
  - destruct (is_live h (timers s)); [|done].
    eapply same_arrays_nonempty; [apply same_arrays_showPreloaded|done].
Qed.

Lemma run_nonempty es s : nonempty s -> nonempty (run es s).
Proof.
  revert s. induction es as [|e es IH]; intros s Hs; [done|].
  cbn. apply IH. by apply handle_nonempty.
Qed.

Lemma configLoaded_nonempty imgs t :
  imgs <> [] -> nonempty (state_of (configLoaded imgs t)).
Proof.
  intros H. unfold configLoaded.
  eapply same_arrays_nonempty; [apply same_arrays_preload|]. by split.
Qed.

(** C7. With one image in the collection, [removeImage] returns with
    every field unchanged, whatever the index, and [removeCurrent] leaves
    the collection as it is; so does [removeCurrent] of the older
    slideshow. Hence, from a configuration with at least one image, no
    sequence of keys, callbacks and timers leaves the active set empty. *)
Theorem last_image_is_never_removed
    (s : PhotoSlideshow) (index : option Z) (old : Legacy.PhotoSlideshow)
    (imgs : list Image) (t : Z) (es : list Event) :
  len (images s) = 1 ->
  len (Legacy.images old) = 1 ->
  imgs <> [] ->
  removeImage index s = Returned s
  /\ images (state_of (removeCurrent s)) = images s
  /\ Legacy.removeCurrent old = Legacy.Returned old
  /\ images (run es (state_of (configLoaded imgs t))) <> [].
Proof.
  intros Hone Hold Himgs. split; [by apply removeImage_keeps_single|].
  split.
  { unfold removeCurrent. cbv zeta.
    rewrite removeImage_keeps_single by (by rewrite images_stopTimeout).
    unfold andThen. rewrite images_preload. apply images_stopTimeout. }
  split; [unfold Legacy.removeCurrent; by rewrite Hold|].
  by apply run_nonempty, configLoaded_nonempty.
Qed.

Lemma last_image_is_never_removed_witness :
  removeImage (Some 0) (showing [A] 0 1000) = Returned (showing [A] 0 1000)
  /\ images (state_of (removeCurrent (showing [A] 0 1000)))
     = images (showing [A] 0 1000)
  /\ Legacy.removeCurrent (legacy_showing [A] 0 None 1000)
     = Legacy.Returned (legacy_showing [A] 0 None 1000)
  /\ images (run [ImageFailed A 0; Key_del]
               (state_of (configLoaded [A] 1000))) <> [].
Proof.
  apply (last_image_is_never_removed (showing [A] 0 1000) (Some 0)
           (legacy_showing [A] 0 None 1000) [A] 1000
           [ImageFailed A 0; Key_del]).
  - reflexivity.
  - reflexivity.
  - discriminate.
Defined.

(** ** At most one live timer *)

Lemma idle_one_timer s : idle s -> one_timer s.
Proof. intros [Hh Ht]. unfold one_timer. by rewrite Hh. Qed.

Lemma one_timer_tracked s :
  one_timer s -> timers_tracked s /\ (length (timers s) <= 1)%nat.
Proof.
  unfold one_timer, timers_tracked.
  destruct (showNextTimeout s) as [h|]; [intros [d ->]|intros ->].
  - split; [|simpl; lia]. by intros t [<-|[]].
  - split; [by intros t []|simpl; lia].
Qed.

Lemma stopTimeout_makes_idle s : one_timer s -> idle (stopTimeout s).
Proof.
  intros Hs. split; [apply stopTimeout_clears|].
  apply stopTimeout_tracked. by apply one_timer_tracked.
Qed.

Lemma preload_makes_idle index s :
  one_timer s -> idle (state_of (preload index s)).
Proof.
  intros Hs%stopTimeout_makes_idle. unfold preload. cbv zeta.
  destruct index as [i|]; [destruct (at_index _ i)|]; exact Hs.
Qed.

Lemma showPreloaded_makes_idle now s :
  timers s = [] -> idle (state_of (showPreloaded now s)).
Proof.
  intros Ht. destruct (showPreloaded_shows now s) as (_ & _ & Ht' & Hh & _).
  split; [done|congruence].
Qed.

Lemma removeImage_one_timer index s :
  one_timer s -> one_timer (state_of (removeImage index s)).
Proof.
  intros Hs. unfold removeImage. destruct index as [i|]; [|done].
  destruct (i =? 0); [done|]. destruct (i >? len (images s) - 1); [done|].
  destruct (len (images s) =? 1); [done|].
  destruct (at_index (images s) i); [|done].
  unfold write_images. by destruct (focus_images s).
Qed.

Lemma handle_one_timer e s : one_timer s -> one_timer (state_of (handle e s)).
Proof.
  intros Hs. destruct e; cbn [handle state_of]; try done.
  - unfold toggleCaptions. by destruct (Viewer.showCaption (viewer s)).
  - unfold toggleFocusMode. destruct (currentImage s); [|done]. cbv zeta.
    apply idle_one_timer, preload_makes_idle, idle_one_timer.
    apply stopTimeout_makes_idle in Hs. by destruct (inFocusMode _).
  - unfold removeCurrent. cbv zeta.
    pose proof (removeImage_one_timer
                  (Viewer.showIndex (viewer (stopTimeout s))) (stopTimeout s)
                  (idle_one_timer _ (stopTimeout_makes_idle s Hs))) as H.
    destruct (removeImage _ (stopTimeout s)) as [s1|s1]; [|exact H].
    apply idle_one_timer. unfold andThen. by apply preload_makes_idle.
  - by apply idle_one_timer, preload_makes_idle.
  - unfold addNote. destruct (Viewer.showIndex (viewer s)) as [i|]; [|done].
    destruct (at_index (images s) i); [|done]. by destruct (negb _).
  - unfold speedUp. by destruct (_ <=? _).
  - apply idle_one_timer, preload_makes_idle, idle_one_timer.
    by apply stopTimeout_makes_idle in Hs.
  - unfold togglePause. destruct (paused s).
    + pose proof (preload_makes_idle
        (Some (if Viewer.nextIndex (viewer s) >=? len (images s) then 0
               else Viewer.nextIndex (viewer s))) s Hs) as H.
      unfold next. cbv zeta. apply idle_one_timer. by destruct (preload _ s).
    + apply idle_one_timer. by apply stopTimeout_makes_idle in Hs.
  - unfold imageLoaded. cbv zeta. apply stopTimeout_makes_idle in Hs as Hidle.
    destruct (previousShow (stopTimeout s)) as [shown|];
      [destruct (_ <? 0)|];
      try (apply idle_one_timer, showPreloaded_makes_idle, Hidle).
    unfold one_timer. cbn. destruct Hidle as [_ ->]. eauto.
  - unfold imageFailed. cbv zeta. set (s1 := with_notes _ s).
    pose proof (removeImage_one_timer (Some index) s1 Hs) as H.
    destruct (removeImage (Some index) s1) as [s2|s2]; [|exact H].
    apply idle_one_timer. unfold andThen. by apply preload_makes_idle.
  - destruct (is_live h (timers s)) eqn:Hlive; [|done].
    apply idle_one_timer, showPreloaded_makes_idle. cbn.
    unfold one_timer in Hs. destruct (showNextTimeout s) as [h'|].
    + destruct Hs as [d Hd]. rewrite Hd in Hlive |- *. cbn in Hlive |- *.
      rewrite orb_false_r in Hlive. by rewrite Hlive.
    + by rewrite Hs.
Qed.

(** While the machine runs, every live timer is the one the slideshow
    holds, and at most one timer is live. *)
Lemma run_one_timer imgs t es :
  let s := run es (state_of (configLoaded imgs t)) in
  timers_tracked s /\ (length (timers s) <= 1)%nat.
Proof.
  cbv zeta. apply one_timer_tracked.
  assert (one_timer (state_of (configLoaded imgs t))) as H
    by (by apply idle_one_timer, preload_makes_idle).
  revert H. generalize (state_of (configLoaded imgs t)).
  induction es as [|e es IH]; intros s Hs; [done|].
  cbn. by apply IH, handle_one_timer.
Qed.

(** * Further properties of the code *)

(** ** Rate control, continued *)





(** X3. However often it is applied, [speedUp] never lengthens the timeout
    and never takes a positive timeout to zero or below. *)
Theorem speedUp_keeps_timeout_positive (n : nat) (s : PhotoSlideshow) :
  0 < timeout s ->
  0 < timeout (Nat.iter n speedUp s) <= timeout s.
Proof.
  intros Hpos. induction n as [|n IH]; [cbn; lia|].
  rewrite Nat.iter_succ.
  destruct (Z.le_gt_cases (timeout (Nat.iter n speedUp s)) MINIMUM_TIMEOUT)
    as [Hle|Hgt].
  - by rewrite speedUp_at_floor.
  - rewrite speedUp_above_floor by done. unfold MINIMUM_TIMEOUT in Hgt. lia.
Qed.

Lemma speedUp_keeps_timeout_positive_witness :
  0 < timeout (Nat.iter 3 speedUp (showing [A; B; C] 0 700)) <= 700.
Proof.
  apply (speedUp_keeps_timeout_positive 3 (showing [A; B; C] 0 700)).
  reflexivity.
Defined.

(** ** Preloading *)

(** X4. [preload] returns exactly for an index into the collection; for
    [null] and for any other number it raises. Either way the handle of the
    timer is dropped, and the collection and the ledger are untouched. *)
Theorem preload_returns_in_range (index : option Z) (s : PhotoSlideshow) :
  ((exists s', preload index s = Returned s')
   <-> (exists i, index = Some i /\ 0 <= i < len (images s)))
  /\ showNextTimeout (state_of (preload index s)) = None
  /\ images (state_of (preload index s)) = images s
  /\ notes (state_of (preload index s)) = notes s.
Proof.
  split; [|split; [|split; [apply images_preload|apply notes_preload]]].
  - unfold preload. cbv zeta. rewrite images_stopTimeout.
    destruct index as [i|].
    + destruct (at_index (images s) i) as [x|] eqn:Hx.
      * split; [|eauto]. intros _. exists i. split; [done|].
        by apply at_index_range in Hx.
      * split; [by intros [s' ?]|]. intros (j & [= <-] & Hj).
        apply at_index_None in Hx. lia.
    + split; [by intros [s' ?]|]. by intros (j & ? & _).
  - unfold preload. cbv zeta.
    destruct index as [i|]; [destruct (at_index _ i)|]; apply stopTimeout_clears.
Qed.

(** ** At most one live timer, continued *)

Lemma run_keeps_one_timer es s : one_timer s -> one_timer (run es s).
Proof.
  revert s. induction es as [|e es IH]; intros s Hs; [done|].
  cbn. by apply IH, handle_one_timer.
Qed.

(** X5. From the loading of any configuration on, whatever keys, callbacks
    and timers follow, and whether or not handlers raise: the browser holds
    at most one live timer of the slideshow, a live timer is the one kept in
    [showNextTimeout], and without a handle there is no live timer. *)
Theorem machine_keeps_one_timer
    (imgs : list Image) (t : Z) (es : list Event) :
  let s := run es (state_of (configLoaded imgs t)) in
  (length (timers s) <= 1)%nat
  /\ (forall live, In live (timers s) ->
        showNextTimeout s = Some (timer_id live))
  /\ (showNextTimeout s = None -> timers s = []).
Proof.
  cbv zeta.
  assert (one_timer (run es (state_of (configLoaded imgs t)))) as H
    by (by apply run_keeps_one_timer, idle_one_timer, preload_makes_idle).
  destruct (one_timer_tracked _ H) as [Htr Hlen].
  split; [done|]. split; [done|]. intros Hnone.
  unfold one_timer in H. by rewrite Hnone in H.
Qed.

(** ** Focus mode, continued *)


Lemma showIndex_stopTimeout s :
  Viewer.showIndex (viewer (stopTimeout s)) = Viewer.showIndex (viewer s).
Proof. by rewrite viewer_stopTimeout. Qed.

Lemma showIndex_preload index s :
  Viewer.showIndex (viewer (state_of (preload index s)))
  = Viewer.showIndex (viewer s).
Proof.
  unfold preload. cbv zeta.
  destruct index as [i|]; [destruct (at_index _ i)|]; cbn;
    apply showIndex_stopTimeout.
Qed.

(** What [toggleFocusMode] does with a current image: the arrays are set,
    then the image after the current one, by url, is preloaded. *)
Lemma toggleFocusMode_with_current s current :
  currentImage s = Some current ->
  exists s1,
    config_images s1 = config_images s
    /\ focus_images s1
       = (if inFocusMode s then None
          else Some (List.filter
                       (fun i => startsWith (url i)
                                   (strip_last_segment (url current)))
                       (config_images s)))
    /\ Viewer.showIndex (viewer s1) = Viewer.showIndex (viewer s)
    /\ toggleFocusMode s
       = preload
           (Some (let currentIndex :=
                    findIndex (fun i => String.eqb (url i) (url current))
                      (images s1) in
                  if currentIndex =? len (images s1) - 1 then 0
                  else currentIndex + 1)) s1.
Proof.
  intros Hcur. unfold toggleFocusMode. rewrite Hcur. cbv zeta.
  set (s0 := with_viewer (Viewer.cancelPreload (viewer (stopTimeout s)))
               (stopTimeout s)).
  destruct (arrays_stopTimeout s) as [Hf Hc].
  assert (inFocusMode s0 = inFocusMode s) as Hin
    by (unfold inFocusMode; cbn; by rewrite Hf).
  assert (config_images s0 = config_images s) as Hc0 by done.
  rewrite Hin, Hc0.
  eexists. split; [|split; [|split; [|reflexivity]]].
  - destruct (inFocusMode s); cbn; exact Hc.
  - by destruct (inFocusMode s).
  - destruct (inFocusMode s); cbn; apply showIndex_stopTimeout.
Qed.

Lemma next_by_url_in_range (l : list Image) (u : string) :
  l <> [] ->
  let currentIndex := findIndex (fun i => String.eqb (url i) u) l in
  0 <= (if currentIndex =? len l - 1 then 0 else currentIndex + 1) < len l.
Proof.
  intros Hne. cbv zeta.
  assert (0 < len l) by (destruct l; [done|unfold len; simpl; lia]).
  destruct (findIndex_range (fun i => String.eqb (url i) u) l) as [->|Hr];
    [destruct (Z.eqb_spec (-1) (len l - 1)); lia|].
  destruct (Z.eqb_spec (findIndex (fun i => String.eqb (url i) u) l)
              (len l - 1)); lia.
Qed.

(** [toggleFocusMode] returns whenever the slideshow has a current image and
    the configured collection holds an image. *)
Lemma toggleFocusMode_returns s current :
  currentImage s = Some current ->
  config_images s <> [] ->
  exists s',
    toggleFocusMode s = Returned s'
    /\ config_images s' = config_images s
    /\ focus_images s'
       = (if inFocusMode s then None
          else Some (List.filter
                       (fun i => startsWith (url i)
                                   (strip_last_segment (url current)))
                       (config_images s)))
    /\ Viewer.showIndex (viewer s') = Viewer.showIndex (viewer s).
Proof.
  intros Hcur Hne.
  destruct (toggleFocusMode_with_current s current Hcur)
    as (s1 & Hc & Hf & Hi & Hrun).
  assert (images s1 <> []) as Hne1.
  { unfold images. rewrite Hf, Hc. unfold inFocusMode.
    destruct (focus_images s) as [l|] eqn:Hfs; [done|].
    apply currentImage_in_images in Hcur. unfold images in Hcur.
    rewrite Hfs in Hcur. intros Hnil.
    assert (In current
              (List.filter
                 (fun i => startsWith (url i) (strip_last_segment (url current)))
                 (config_images s))) as Hin
      by (apply filter_In; split; [done|apply strip_last_segment_prefix]).
    by rewrite Hnil in Hin. }
  pose proof (next_by_url_in_range (images s1) (url current) Hne1) as Hr.
  cbv zeta in Hr, Hrun.
  destruct (at_index_in_range _ _ Hr) as [item Hitem].
  rewrite (preload_in_range s1 _ item Hitem) in Hrun.
  eexists. split; [exact Hrun|].
  destruct (arrays_stopTimeout s1) as [Hf1 Hc1]. cbn.
  rewrite Hc1, Hf1, showIndex_stopTimeout. done.
Qed.



(** X7. Focus mode is left as it was entered: when the index on screen still
    holds an image of the focus set, a second [toggleFocusMode] returns with
    the configured collection active again, as it was, and outside focus
    mode. *)
Theorem focus_round_trip (s : PhotoSlideshow) (current other : Image) :
  inFocusMode s = false ->
  currentImage s = Some current ->
  currentImage (state_of (toggleFocusMode s)) = Some other ->
  exists s2,
    toggleFocusMode (state_of (toggleFocusMode s)) = Returned s2
    /\ inFocusMode s2 = false
    /\ images s2 = images s
    /\ config_images s2 = config_images s.
Proof.
  intros Hfocus Hcur Hother.
  assert (focus_images s = None) as Hnone
    by (unfold inFocusMode in Hfocus; by destruct (focus_images s)).
  assert (config_images s <> []) as Hne.
  { apply currentImage_in_images in Hcur. unfold images in Hcur.
    rewrite Hnone in Hcur. by destruct (config_images s). }
  destruct (toggleFocusMode_returns s current Hcur Hne)
    as (s1 & Hrun & Hc & Hf & _).
  rewrite Hrun in Hother |- *. cbn [state_of] in *. rewrite Hfocus in Hf.
  assert (config_images s1 <> []) as Hne1 by (by rewrite Hc).
  destruct (toggleFocusMode_returns s1 other Hother Hne1)
    as (s2 & Hrun2 & Hc2 & Hf2 & _).
  assert (inFocusMode s1 = true) as Hin1 by (unfold inFocusMode; by rewrite Hf).
  rewrite Hin1 in Hf2. exists s2. split; [done|].
  unfold inFocusMode, images. rewrite Hf2, Hc2, Hc, Hnone. done.
Qed.

Lemma focus_round_trip_witness :
  let s := showing [image_of "a/b/c.jpg"; image_of "z/e.jpg";
                    image_of "a/b/d.jpg"] 0 1000 in
  exists s2,
    toggleFocusMode (state_of (toggleFocusMode s)) = Returned s2
    /\ inFocusMode s2 = false
    /\ images s2 = images s
    /\ config_images s2 = config_images s.
Proof.
  apply (focus_round_trip
           (showing [image_of "a/b/c.jpg"; image_of "z/e.jpg";
                     image_of "a/b/d.jpg"] 0 1000)
           (image_of "a/b/c.jpg") (image_of "a/b/c.jpg")); reflexivity.
Defined.

(** X8. Focus mode cannot be left while the index on screen lies beyond the
    focus set: [toggleFocusMode] does not move the index on screen, so after
    entering from an index at or past the size of the focus set the
    slideshow has no current image and a second [toggleFocusMode] changes
    nothing. *)
Theorem focus_toggle_stuck_beyond_focus_set
    (s : PhotoSlideshow) (current : Image) (i : Z) :
  inFocusMode s = false ->
  Viewer.showIndex (viewer s) = Some i ->
  at_index (images s) i = Some current ->
  len (List.filter
         (fun x => startsWith (url x) (strip_last_segment (url current)))
         (config_images s)) <= i ->
  let s1 := state_of (toggleFocusMode s) in
  inFocusMode s1 = true
  /\ currentImage s1 = None
  /\ toggleFocusMode s1 = Returned s1.
Proof.
  intros Hfocus Hshown Hat Hlen.
  assert (currentImage s = Some current) as Hcur
    by (unfold currentImage; by rewrite Hshown).
  assert (config_images s <> []) as Hne.
  { apply currentImage_in_images in Hcur. unfold images, inFocusMode in *.
    destruct (focus_images s); [done|]. by destruct (config_images s). }
  destruct (toggleFocusMode_returns s current Hcur Hne)
    as (s1 & -> & Hc & Hf & Hi).
  cbv zeta. cbn [state_of]. rewrite Hfocus in Hf.
  assert (currentImage s1 = None) as Hnone.
  { unfold currentImage, images. rewrite Hi, Hshown, Hf.
    apply at_index_None. right. exact Hlen. }
  split; [unfold inFocusMode; by rewrite Hf|]. split; [done|].
  unfold toggleFocusMode. by rewrite Hnone.
Qed.

Lemma focus_toggle_stuck_beyond_focus_set_witness :
  let s := showing [image_of "x/a.jpg"; image_of "y/b.jpg";
                    image_of "y/c.jpg"] 2 1000 in
  let s1 := state_of (toggleFocusMode s) in
  inFocusMode s1 = true
  /\ currentImage s1 = None
  /\ toggleFocusMode s1 = Returned s1.
Proof.
  apply (focus_toggle_stuck_beyond_focus_set
           (showing [image_of "x/a.jpg"; image_of "y/b.jpg";
                     image_of "y/c.jpg"] 2 1000)
           (image_of "y/c.jpg") 2).
  - reflexivity.
  - reflexivity.
  - reflexivity.
  - vm_compute. congruence.
Defined.

(** ** Deleting the current image, continued *)

Lemma removeCurrent_at_later_index s i :
  Viewer.showIndex (viewer s) = Some i ->
  1 <= i < len (images s) ->
  removeCurrent s
  = preload (Some i)
      (showPreloadingImageImmediatly
         (write_images (delete (Z.to_nat i) (images s)) (stopTimeout s))).
Proof.
  intros Hshown Hi. unfold removeCurrent. cbv zeta.
  rewrite showIndex_stopTimeout, Hshown.
  rewrite removeImage_removes by (by rewrite images_stopTimeout).
  unfold andThen. by rewrite images_stopTimeout.
Qed.

Lemma lookup_delete_next {T : Type} (l : list T) (i : Z) :
  0 <= i ->
  at_index (delete (Z.to_nat i) l) i = at_index l (i + 1).
Proof.
  intros Hi. unfold at_index.
  destruct (Z.ltb_spec i 0), (Z.ltb_spec (i + 1) 0); try lia.
  rewrite list_lookup_delete_ge by lia. f_equal. lia.
Qed.

(** X9. Deleting the image on screen at an index from 1 on, short of the
    last: [removeCurrent] returns, the collection is the old one without
    that image, [previousShow] is cleared, no timer is held, and the image
    that followed it is requested under the same index. *)
Theorem removeCurrent_requests_the_follower
    (s : PhotoSlideshow) (i : Z) (follower : Image) :
  Viewer.showIndex (viewer s) = Some i ->
  1 <= i ->
  at_index (images s) (i + 1) = Some follower ->
  exists s',
    removeCurrent s = Returned s'
    /\ images s' = delete (Z.to_nat i) (images s)
    /\ pending s' = Some (follower, i)
    /\ previousShow s' = None
    /\ showNextTimeout s' = None
    /\ Viewer.showIndex (viewer s') = Some i.
Proof.
  intros Hshown Hi Hnext. apply at_index_range in Hnext as Hr.
  rewrite removeCurrent_at_later_index with (i := i) by (done || lia).
  set (s1 := showPreloadingImageImmediatly _).
  assert (images s1 = delete (Z.to_nat i) (images s)) as Himg
    by exact (images_write_images _ _).
  assert (at_index (images s1) i = Some follower) as Hat
    by (rewrite Himg, lookup_delete_next by lia; done).
  rewrite (preload_in_range s1 i follower Hat).
  eexists. split; [reflexivity|].
  split; [change (images (stopTimeout s1) = delete (Z.to_nat i) (images s));
          by rewrite images_stopTimeout|].
  split; [done|].
  split; [change (previousShow (stopTimeout s1) = None);
          by rewrite previousShow_stopTimeout|].
  split; [apply stopTimeout_clears|].
  change (Viewer.showIndex (viewer (stopTimeout s1)) = Some i).
  rewrite showIndex_stopTimeout.
  unfold s1, write_images. destruct (focus_images (stopTimeout s));
    apply showIndex_stopTimeout || (cbn; by rewrite showIndex_stopTimeout).
Qed.

Lemma removeCurrent_requests_the_follower_witness :
  exists s',
    removeCurrent (showing [A; B; C] 1 1000) = Returned s'
    /\ images s' = delete (Z.to_nat 1) (images (showing [A; B; C] 1 1000))
    /\ pending s' = Some (C, 1)
    /\ previousShow s' = None
    /\ showNextTimeout s' = None
    /\ Viewer.showIndex (viewer s') = Some 1.
Proof.
  apply (removeCurrent_requests_the_follower (showing [A; B; C] 1 1000) 1 C).
  - reflexivity.
  - lia.
  - reflexivity.
Defined.

(** X10. Deleting the image on screen when it is the last of two or more:
    [removeCurrent] removes it and then raises, because the preload is
    issued for the old index and not for the wrapped one. No request is made
    of the display surface; the index on screen now lies beyond the
    collection, so the slideshow has no current image, [addNote] raises and
    [toggleFocusMode] does nothing. *)
Theorem removeCurrent_at_the_end_raises (s : PhotoSlideshow) (i : Z) :
  Viewer.showIndex (viewer s) = Some i ->
  1 <= i ->
  i = len (images s) - 1 ->
  exists s',
    removeCurrent s = Threw s'
    /\ images s' = delete (Z.to_nat i) (images s)
    /\ len (images s') = i
    /\ Viewer.calls (viewer s') = Viewer.calls (viewer s)
    /\ previousShow s' = None
    /\ showNextTimeout s' = None
    /\ currentImage s' = None
    /\ addNote s' = Threw s'
    /\ toggleFocusMode s' = Returned s'.
Proof.
  intros Hshown Hi Hlast.
  rewrite removeCurrent_at_later_index with (i := i) by (done || lia).
  set (s1 := showPreloadingImageImmediatly _).
  assert (images s1 = delete (Z.to_nat i) (images s)) as Himg
    by exact (images_write_images _ _).
  assert (len (images s1) = i) as Hlen.
  { rewrite Himg, <- splice1_in_range, len_splice1 by lia. lia. }
  assert (at_index (images s1) i = None) as Hat
    by (apply at_index_None; lia).
  rewrite (preload_out_of_range s1 i Hat).
  assert (Viewer.showIndex (viewer s1) = Some i) as Hshown1.
  { unfold s1, write_images. destruct (focus_images (stopTimeout s)); cbn;
      by rewrite showIndex_stopTimeout. }
  assert (viewer s1 = viewer s) as Hv.
  { unfold s1, write_images. destruct (focus_images (stopTimeout s)); cbn;
      apply viewer_stopTimeout. }
  eexists. split; [reflexivity|].
  rewrite images_stopTimeout, previousShow_stopTimeout.
  split; [done|]. split; [done|].
  split; [by rewrite viewer_stopTimeout, Hv|]. split; [done|].
  split; [apply stopTimeout_clears|].
  assert (currentImage (stopTimeout s1) = None) as Hcur
    by (unfold currentImage; by rewrite showIndex_stopTimeout, Hshown1,
          images_stopTimeout).
  split; [done|]. split.
  - unfold addNote. by rewrite showIndex_stopTimeout, Hshown1,
      images_stopTimeout, Hat.
  - unfold toggleFocusMode. by rewrite Hcur.
Qed.

Lemma removeCurrent_at_the_end_raises_witness :
  exists s',
    removeCurrent (showing [A; B; C] 2 1000) = Threw s'
    /\ images s' = delete (Z.to_nat 2) (images (showing [A; B; C] 2 1000))
    /\ len (images s') = 2
    /\ Viewer.calls (viewer s')
       = Viewer.calls (viewer (showing [A; B; C] 2 1000))
    /\ previousShow s' = None
    /\ showNextTimeout s' = None
    /\ currentImage s' = None
    /\ addNote s' = Threw s'
    /\ toggleFocusMode s' = Returned s'.
Proof.
  apply (removeCurrent_at_the_end_raises (showing [A; B; C] 2 1000) 2).
  - reflexivity.
  - lia.
  - reflexivity.
Defined.

(** X11. A deletion reaches the configured collection only outside focus
    mode: there [this.images] is the configured array itself and loses the
    image too; in focus mode only the filtered copy is spliced, and the
    configured collection keeps the image. *)
Theorem delete_reaches_configuration_outside_focus
    (s : PhotoSlideshow) (i : Z) :
  Viewer.showIndex (viewer s) = Some i ->
  1 <= i < len (images s) ->
  let s' := state_of (removeCurrent s) in
  images s' = delete (Z.to_nat i) (images s)
  /\ inFocusMode s' = inFocusMode s
  /\ config_images s'
     = (if inFocusMode s then config_images s
        else delete (Z.to_nat i) (config_images s)).
Proof.
  intros Hshown Hi. cbv zeta.
  rewrite removeCurrent_at_later_index with (i := i) by done.
  destruct (preload_keeps_arrays (Some i)
              (showPreloadingImageImmediatly
                 (write_images (delete (Z.to_nat i) (images s))
                    (stopTimeout s)))) as [Hc Hf].
  unfold images at 1, inFocusMode at 1. rewrite Hc, Hf.
  destruct (arrays_stopTimeout s) as [Hfs Hcs].
  unfold write_images, images, inFocusMode. cbn. rewrite Hfs.
  destruct (focus_images s); cbn; by rewrite ?Hcs.
Qed.

Lemma delete_reaches_configuration_outside_focus_witness :
  let s := state_of (toggleFocusMode
                       (showing [image_of "a/b.jpg"; image_of "a/c.jpg";
                                 image_of "a/d.jpg"] 1 1000)) in
  let s' := state_of (removeCurrent s) in
  images s' = delete (Z.to_nat 1) (images s)
  /\ inFocusMode s' = inFocusMode s
  /\ config_images s'
     = (if inFocusMode s then config_images s
        else delete (Z.to_nat 1) (config_images s)).
Proof.
  apply (delete_reaches_configuration_outside_focus
           (state_of (toggleFocusMode
                        (showing [image_of "a/b.jpg"; image_of "a/c.jpg";
                                  image_of "a/d.jpg"] 1 1000))) 1).
  - reflexivity.
  - vm_compute. split; congruence.
Defined.

(** ** Skipping and advancing *)

Lemma imageLoaded_without_previousShow now image index s :
  previousShow s = None ->
  imageLoaded now image index s = showPreloaded now (stopTimeout s).
Proof.
  intros H. unfold imageLoaded. cbv zeta.
  by rewrite previousShow_stopTimeout, H.
Qed.

(** A preload issued without [previousShow], followed by the success
    callback at any time: the image is shown at once under the index that
    was asked for. *)
Lemma preload_then_loaded s k item now image index :
  at_index (images s) k = Some item ->
  previousShow s = None ->
  exists s1,
    preload (Some k) s = Returned s1
    /\ pending s1 = Some (item, k)
    /\ previousShow s1 = None
    /\ images s1 = images s
    /\ displays_at_once s1 (imageLoaded now image index s1)
    /\ Viewer.showIndex (viewer (state_of (imageLoaded now image index s1)))
       = Some k.
Proof.
  intros Hat Hprev. rewrite (preload_in_range s k item Hat).
  set (s1 := with_viewer _ (stopTimeout s)).
  assert (previousShow s1 = None) as Hp1
    by (change (previousShow (stopTimeout s) = None);
        by rewrite previousShow_stopTimeout).
  exists s1. split; [done|]. split; [done|]. split; [done|].
  split; [exact (images_stopTimeout s)|].
  rewrite imageLoaded_without_previousShow by done.
  destruct (showPreloaded_shows now (stopTimeout s1)) as (Hd & Hi & _).
  unfold displays_at_once, pending in *.
  rewrite !viewer_stopTimeout in Hd, Hi. by split.
Qed.

(** X12. The arrow keys with the image at [i] on screen: [goToNext] and
    [goToPrevious] return with the neighbour requested, [i + 1] or 0 past
    the end and [i - 1] or the last index before the start, and with
    [previousShow] cleared; as soon as the display surface reports success,
    at whatever time, that neighbour is on screen. *)
Theorem arrow_keys_show_the_neighbour_at_once
    (s : PhotoSlideshow) (i now : Z) (image : Image) (index : Z) :
  Viewer.showIndex (viewer s) = Some i ->
  0 <= i < len (images s) ->
  let n := len (images s) in
  (exists s1 item,
     goToNext s = Returned s1
     /\ at_index (images s) (next_index n i) = Some item
     /\ pending s1 = Some (item, next_index n i)
     /\ previousShow s1 = None
     /\ displays_at_once s1 (imageLoaded now image index s1)
     /\ Viewer.showIndex (viewer (state_of (imageLoaded now image index s1)))
        = Some (next_index n i))
  /\ (exists s1 item,
        goToPrevious s = Returned s1
        /\ at_index (images s) (previous_index n i) = Some item
        /\ pending s1 = Some (item, previous_index n i)
        /\ previousShow s1 = None
        /\ displays_at_once s1 (imageLoaded now image index s1)
        /\ Viewer.showIndex (viewer (state_of (imageLoaded now image index s1)))
           = Some (previous_index n i)).
Proof.
  intros Hshown Hi n. split.
  - destruct (at_index_in_range (images s) (next_index n i)) as [item Hitem];
      [by apply next_index_range|].
    set (s0 := showPreloadingImageImmediatly (stopTimeout s)).
    assert (images s0 = images s) as Himg by exact (images_stopTimeout s).
    assert (goToNext s = preload (Some (next_index n i)) s0) as ->.
    { unfold goToNext. cbv zeta. fold s0.
      rewrite (next_preloads_next_index s0 i)
        by (change (Viewer.showIndex (viewer (stopTimeout s)) = Some i);
            by rewrite showIndex_stopTimeout).
      by rewrite Himg. }
    rewrite <- Himg in Hitem.
    destruct (preload_then_loaded s0 _ item now image index Hitem eq_refl)
      as (s1 & Hrun & Hp & Hprev & _ & Hd & Hs).
    exists s1, item. by rewrite <- Himg.
  - destruct (at_index_in_range (images s) (previous_index n i))
      as [item Hitem]; [by apply previous_index_range|].
    set (s0 := showPreloadingImageImmediatly s).
    assert (goToPrevious s = preload (Some (previous_index n i)) s0) as ->.
    { unfold goToPrevious. cbv zeta. fold s0.
      by rewrite (previous_preloads_previous_index s0 i). }
    destruct (preload_then_loaded s0 _ item now image index Hitem eq_refl)
      as (s1 & Hrun & Hp & Hprev & _ & Hd & Hs).
    by exists s1, item.
Qed.

Lemma arrow_keys_show_the_neighbour_at_once_witness :
  let s := waiting_for_B 1000 in
  let n := len (images s) in
  (exists s1 item,
     goToNext s = Returned s1
     /\ at_index (images s) (next_index n 0) = Some item
     /\ pending s1 = Some (item, next_index n 0)
     /\ previousShow s1 = None
     /\ displays_at_once s1 (imageLoaded 250 B 1 s1)
     /\ Viewer.showIndex (viewer (state_of (imageLoaded 250 B 1 s1)))
        = Some (next_index n 0))
  /\ (exists s1 item,
        goToPrevious s = Returned s1
        /\ at_index (images s) (previous_index n 0) = Some item
        /\ pending s1 = Some (item, previous_index n 0)
        /\ previousShow s1 = None
        /\ displays_at_once s1 (imageLoaded 250 B 1 s1)
        /\ Viewer.showIndex (viewer (state_of (imageLoaded 250 B 1 s1)))
           = Some (previous_index n 0)).
Proof.
  apply (arrow_keys_show_the_neighbour_at_once (waiting_for_B 1000) 0 250 B 1).
  - reflexivity.
  - vm_compute. split; congruence.
Defined.

(** One display: the pending index goes on screen and its successor is
    requested. *)
Lemma showPreloaded_advances now s i item :
  0 <= i < len (images s) ->
  pending s = Some (item, i) ->
  exists item',
    images (state_of (showPreloaded now s)) = images s
    /\ Viewer.showIndex (viewer (state_of (showPreloaded now s))) = Some i
    /\ pending (state_of (showPreloaded now s))
       = Some (item', next_index (len (images s)) i).
Proof.
  intros Hi Hpend. unfold showPreloaded. cbv zeta.
  set (s3 := with_previousShow (Some now) _).
  assert (Viewer.showIndex (viewer s3) = Some i) as Hshown
    by (unfold pending in Hpend; cbn; by rewrite Hpend).
  assert (images s3 = images s) as Himg by done.
  assert (showNextTimeout s3 = None) as Hidle by done.
  rewrite (next_preloads_next_index s3 i Hshown), Himg.
  destruct (at_index_in_range (images s3) (next_index (len (images s)) i))
    as [item' Hitem]; [rewrite Himg; by apply next_index_range|].
  rewrite (preload_in_range s3 _ item' Hitem), (stopTimeout_idle s3 Hidle).
  exists item'. by rewrite <- Hshown.
Qed.

(** X13. The advance loop is a cycle: with the image at [i] on screen and
    its successor pending, as many displays as the collection has images, at
    whatever times, bring the image at [i] back on screen with its successor
    pending again, and the collection is as it was. *)
Theorem advance_loop_cycles
    (nows : list Z) (s : PhotoSlideshow) (i : Z) (item : Image) :
  Viewer.showIndex (viewer s) = Some i ->
  0 <= i < len (images s) ->
  pending s = Some (item, next_index (len (images s)) i) ->
  length nows = Z.to_nat (len (images s)) ->
  let s' := display_all nows s in
  images s' = images s
  /\ Viewer.showIndex (viewer s') = Some i
  /\ exists item', pending s' = Some (item', next_index (len (images s)) i).
Proof.
  intros Hshown Hi Hpend Hlen. cbv zeta.
  set (n := len (images s)) in *.
  assert (forall nows s0 j item0,
            images s0 = images s -> 0 <= j < n ->
            Viewer.showIndex (viewer s0) = Some j ->
            pending s0 = Some (item0, next_index n j) ->
            images (display_all nows s0) = images s
            /\ Viewer.showIndex (viewer (display_all nows s0))
               = Some (Nat.iter (length nows) (next_index n) j)
            /\ exists item',
                 pending (display_all nows s0)
                 = Some (item',
                         next_index n (Nat.iter (length nows) (next_index n) j)))
    as Hgen.
  { clear. intros nows. induction nows as [|t nows IH];
      intros s0 j item0 Himg Hj Hs Hp; [cbn; eauto|].
    destruct (showPreloaded_advances t s0 (next_index n j) item0)
      as (item' & Himg' & Hs' & Hp');
      [rewrite Himg; by apply next_index_range|done|].
    rewrite Himg in Hp'. fold n in Hp'.
    destruct (IH (state_of (showPreloaded t s0)) (next_index n j) item')
      as (H1 & H2 & H3); [congruence|by apply next_index_range|done..|].
    change (display_all (t :: nows) s0)
      with (display_all nows (state_of (showPreloaded t s0))).
    change (length (t :: nows)) with (S (length nows)).
    rewrite Nat.iter_succ_r. done. }
  destruct (Hgen nows s i item eq_refl Hi Hshown Hpend) as (H1 & H2 & H3).
  rewrite Hlen in H2, H3.
  assert (Nat.iter (Z.to_nat n) (next_index n) i = i) as Hcycle.
  { rewrite iter_next_index by done. rewrite Z2Nat.id by lia.
    replace (i + n) with (i + 1 * n) by lia.
    rewrite Z.mod_add by lia. by apply Z.mod_small. }
  rewrite Hcycle in H2, H3. done.
Qed.

Lemma advance_loop_cycles_witness :
  let s := waiting_for_B 1000 in
  let s' := display_all [1000; 2000; 3000] s in
  images s' = images s
  /\ Viewer.showIndex (viewer s') = Some 0
  /\ exists item', pending s' = Some (item', next_index (len (images s)) 0).
Proof.
  apply (advance_loop_cycles [1000; 2000; 3000] (waiting_for_B 1000) 0 B).
  - reflexivity.
  - vm_compute. split; congruence.
  - reflexivity.
  - reflexivity.
Defined.

(** ** The pause flag *)

















(** ** Failure notes *)

Lemma imageFailed_at_first_index s image :
  at_index (images s) 0 = Some image ->
  exists s',
    imageFailed image 0 s = Returned s'
    /\ images s' = images s
    /\ notes s' = notes s ++ [String.append "Missing " (url image)]
    /\ previousShow s' = None
    /\ pending s' = Some (image, 0).
Proof.
  intros Hat. unfold imageFailed. cbv zeta.
  set (s1 := with_notes _ s).
  change (removeImage (Some 0) s1) with (Returned s1). unfold andThen.
  replace (if 0 =? len (images s1) then 0 else 0) with 0
    by (by destruct (0 =? _)).
  rewrite (preload_in_range _ 0 image) by exact Hat.
  eexists. split; [reflexivity|].
  split; [exact (images_stopTimeout (showPreloadingImageImmediatly s1))|].
  split; [exact (notes_stopTimeout (showPreloadingImageImmediatly s1))|].
  split; [exact (previousShow_stopTimeout (showPreloadingImageImmediatly s1))|].
  done.
Qed.

(** X15. A failure of the image at index 0 never evicts it: however often
    the failure callback comes for it, the collection stays as it is, the
    same image is requested again under index 0 with [previousShow] cleared,
    and each failure appends one more copy of its ["Missing <url>"] note,
    failure notes not being looked up before they are pushed. *)
Theorem failing_first_image_is_kept_and_noted_again
    (s : PhotoSlideshow) (image : Image) (k : nat) :
  at_index (images s) 0 = Some image ->
  let s' := fail_first image k s in
  images s' = images s
  /\ notes s'
     = notes s ++ replicate k (String.append "Missing " (url image))
  /\ ((0 < k)%nat -> pending s' = Some (image, 0) /\ previousShow s' = None).
Proof.
  intros Hat. cbv zeta. induction k as [|k (Himg & Hnotes & _)].
  - cbn. split; [done|]. split; [by rewrite app_nil_r|]. lia.
  - unfold fail_first in *. rewrite Nat.iter_succ.
    set (sk := Nat.iter k _ s) in *.
    destruct (imageFailed_at_first_index sk image) as (s' & -> & H1 & H2 & H3 & H4);
      [by rewrite Himg|].
    cbn [state_of]. split; [congruence|]. split; [|done].
    rewrite H2, Hnotes, replicate_S_end. by rewrite app_assoc.
Qed.

Lemma failing_first_image_is_kept_and_noted_again_witness :
  let s := state_of (configLoaded [A; B; C] 1000) in
  let s' := fail_first A 3 s in
  images s' = images s
  /\ notes s' = notes s ++ replicate 3 (String.append "Missing " (url A))
  /\ ((0 < 3)%nat -> pending s' = Some (A, 0) /\ previousShow s' = None).
Proof.
  apply (failing_first_image_is_kept_and_noted_again
           (state_of (configLoaded [A; B; C] 1000)) A 3).
  reflexivity.
Defined.

(** ** The ledger over a run *)

Lemma notes_next s : notes (state_of (next s)) = notes s.
Proof. apply notes_preload. Qed.

Lemma notes_showPreloaded now s : notes (state_of (showPreloaded now s)) = notes s.
Proof.
  unfold showPreloaded. cbv zeta.
  match goal with |- notes (state_of (next ?x)) = _ => exact (notes_next x) end.
Qed.

Lemma prefix_of_append (a b : string) : String.prefix a (String.append a b) = true.
Proof.
  induction a as [|c a IH]; [by destruct b|].
  change (String.append (String c a) b) with (String c (String.append a b)).
  cbn [String.prefix]. by destruct (ascii_dec c c).
Qed.

(** A handler leaves the ledger as it is, empties it, appends a failure
    note, or appends a url that was not in it. *)
Lemma handle_notes e s :
  notes (state_of (handle e s)) = notes s
  \/ notes (state_of (handle e s)) = []
  \/ (exists u, notes (state_of (handle e s))
                = notes s ++ [String.append "Missing " u])
  \/ (exists u, ~ In u (notes s)
                /\ notes (state_of (handle e s)) = notes s ++ [u]).
Proof.
  destruct e; cbn [handle state_of]; try (by left).
  - left. unfold toggleCaptions. by destruct (Viewer.showCaption (viewer s)).
  - left. unfold toggleFocusMode. destruct (currentImage s); [|done].
    cbv zeta. rewrite notes_preload.
    destruct (inFocusMode _); exact (notes_stopTimeout s).
  - left. unfold removeCurrent. cbv zeta.
    pose proof (notes_removeImage (Viewer.showIndex (viewer (stopTimeout s)))
                  (stopTimeout s)) as H.
    rewrite notes_stopTimeout in H.
    destruct (removeImage _ (stopTimeout s)) as [s1|s1]; [|exact H].
    unfold andThen. rewrite notes_preload. exact H.
  - left. unfold goToPrevious, previous. cbv zeta. by rewrite notes_preload.
  - unfold addNote. destruct (Viewer.showIndex (viewer s)) as [i|]; [|by left].
    destruct (at_index (images s) i) as [image|]; [|by left].
    destruct (in_dec string_dec (url image) (notes s)) as [Hin|Hout].
    + rewrite findIndex_url_present by done. by left.
    + rewrite findIndex_url_absent by done. right. right. right. eauto.
  - left. unfold speedUp. by destruct (_ <=? _).
  - by right; left.
  - left. unfold goToNext, next. cbv zeta. rewrite notes_preload.
    exact (notes_stopTimeout s).
  - left. unfold togglePause. destruct (paused s).
    + pose proof (notes_next s) as H. by destruct (next s).
    + exact (notes_stopTimeout s).
  - left. unfold imageLoaded. cbv zeta.
    destruct (previousShow (stopTimeout s)); [destruct (_ <? 0)|];
      rewrite ?notes_showPreloaded; exact (notes_stopTimeout s).
  - right. right. left. exists (url image). apply imageFailed_appends_note.
  - left. destruct (is_live h (timers s)); [|done].
    by rewrite notes_showPreloaded.
Qed.

(** X16. From the loading of any configuration on, whatever follows: a
    ledger entry that does not read like a failure note, that is, does not
    begin with ["Missing "], occurs in the ledger at most once. *)
Theorem manual_notes_never_repeat
    (imgs : list Image) (t : Z) (es : list Event) (u : string) :
  is_failure_note u = false ->
  (count_occ string_dec (notes (run es (state_of (configLoaded imgs t)))) u
   <= 1)%nat.
Proof.
  intros Hu.
  assert (forall es s, (count_occ string_dec (notes s) u <= 1)%nat ->
            (count_occ string_dec (notes (run es s)) u <= 1)%nat) as Hrun.
  { clear es. intros es. induction es as [|e es IH]; intros s Hs; [done|].
    cbn. apply IH.
    destruct (handle_notes e s) as [->|[->|[[v ->]|(v & Hv & ->)]]].
    - done.
    - cbn. lia.
    - rewrite count_occ_app. cbn.
      destruct (string_dec (String.append "Missing " v) u) as [<-|_]; [|lia].
      unfold is_failure_note in Hu. by rewrite prefix_of_append in Hu.
    - rewrite count_occ_app. cbn. destruct (string_dec v u) as [->|_]; [|lia].
      apply (count_occ_not_In string_dec) in Hv. lia. }
  apply Hrun. unfold configLoaded. rewrite notes_preload. cbn. lia.
Qed.

Lemma manual_notes_never_repeat_witness :
  (count_occ string_dec
     (notes (run [ImageLoaded 0 A 0; Key_n; ImageFailed B 1; Key_n]
               (state_of (configLoaded [A; B; C] 1000)))) "a.jpg"
   <= 1)%nat.
Proof.
  apply (manual_notes_never_repeat [A; B; C] 1000
           [ImageLoaded 0 A 0; Key_n; ImageFailed B 1; Key_n] "a.jpg").
  reflexivity.
Defined.

(** ** The older slideshow: deleting and failing *)

Lemma legacy_removeCurrent_in_range old i :
  Legacy.index old = Some i ->
  0 <= i < len (Legacy.images old) ->
  1 < len (Legacy.images old) ->
  Legacy.removeCurrent old
  = Legacy.Returned
      (Legacy.with_images (delete (Z.to_nat i) (Legacy.images old)) old).
Proof.
  intros Hidx Hi Hlen. unfold Legacy.removeCurrent.
  destruct (Z.leb_spec (len (Legacy.images old)) 1); [lia|].
  rewrite Hidx. cbn [at_value Legacy.to_number].
  destruct (at_index_in_range (Legacy.images old) i Hi) as [x ->].
  cbv zeta. cbn [Legacy.index Legacy.with_images Legacy.images].
  rewrite Hidx, splice1_in_range by done.
  assert (len (delete (Z.to_nat i) (Legacy.images old))
          = len (Legacy.images old) - 1) as Hl
    by (rewrite <- splice1_in_range by done; by apply len_splice1).
  rewrite Hl. by destruct (Z.eqb_spec i (len (Legacy.images old) - 1 + 1)); [lia|].
Qed.

(** X19. The older [removeCurrent] never resets the index: the comparison
    with the new length plus one cannot hold for an index into the
    collection. It removes the image on screen and leaves the index where it
    was. The delete key then asks for the image that followed under the same
    index; after the last image was removed the index lies beyond the
    collection and the delete key raises. *)
Theorem legacy_delete_never_wraps
    (old : Legacy.PhotoSlideshow) (i : Z) :
  Legacy.index old = Some i ->
  0 <= i < len (Legacy.images old) ->
  1 < len (Legacy.images old) ->
  let removed := delete (Z.to_nat i) (Legacy.images old) in
  (exists old',
     Legacy.removeCurrent old = Legacy.Returned old'
     /\ Legacy.images old' = removed
     /\ Legacy.index old' = Some i)
  /\ (forall follower,
        at_index (Legacy.images old) (i + 1) = Some follower ->
        exists old',
          Legacy.keydown 46 old = Legacy.Returned old'
          /\ Legacy.images old' = removed
          /\ Legacy.preloadIndex old' = Some i
          /\ Legacy.preloader_src old' = Some (url follower)
          /\ Legacy.previousShow old' = None)
  /\ (i = len (Legacy.images old) - 1 ->
      exists old',
        Legacy.keydown 46 old = Legacy.Threw old'
        /\ Legacy.images old' = removed
        /\ Legacy.index old' = Some i
        /\ at_index (Legacy.images old') i = None).
Proof.
  intros Hidx Hi Hlen removed.
  assert (forall s0, Legacy.images (Legacy.stopTimeout s0) = Legacy.images s0
                     /\ Legacy.index (Legacy.stopTimeout s0) = Legacy.index s0)
    as Hstop
    by (intros s0; unfold Legacy.stopTimeout;
        by destruct (Legacy.showNextTimeout s0)).
  split; [|split].
  - rewrite legacy_removeCurrent_in_range with (i := i) by done. eauto.
  - intros follower Hf. cbn [Legacy.keydown]. cbv zeta.
    destruct (Hstop old) as [Himg0 Hidx0].
    rewrite legacy_removeCurrent_in_range with (i := i)
      by (rewrite ?Himg0, ?Hidx0; done).
    cbn [Legacy.andThen]. unfold Legacy.preload. cbv zeta.
    match goal with |- context [Legacy.stopTimeout ?x] => set (s1 := x) end.
    destruct (Hstop s1) as [Himg1 Hidx1].
    assert (Legacy.images s1 = removed) as Hi1
      by (unfold s1; cbn; by rewrite Himg0).
    assert (Legacy.index s1 = Some i) as Hx1
      by (unfold s1; cbn; by rewrite Hidx0).
    rewrite Hx1. cbn [at_value]. rewrite Himg1, Hi1. unfold removed.
    rewrite lookup_delete_next, Hf by lia.
    eexists. split; [reflexivity|]. cbn.
    rewrite Himg1, Hi1. split; [done|]. split; [done|]. split; [done|].
    unfold Legacy.stopTimeout. by destruct (Legacy.showNextTimeout s1).
  - intros Hlast. cbn [Legacy.keydown]. cbv zeta.
    destruct (Hstop old) as [Himg0 Hidx0].
    rewrite legacy_removeCurrent_in_range with (i := i)
      by (rewrite ?Himg0, ?Hidx0; done).
    cbn [Legacy.andThen]. unfold Legacy.preload. cbv zeta.
    match goal with |- context [Legacy.stopTimeout ?x] => set (s1 := x) end.
    destruct (Hstop s1) as [Himg1 Hidx1].
    assert (Legacy.images s1 = removed) as Hi1
      by (unfold s1; cbn; by rewrite Himg0).
    assert (Legacy.index s1 = Some i) as Hx1
      by (unfold s1; cbn; by rewrite Hidx0).
    assert (at_index removed i = None) as Hnone.
    { apply at_index_None. right. unfold removed.
      rewrite <- splice1_in_range, len_splice1 by done. lia. }
    rewrite Hx1. cbn [at_value]. rewrite Himg1, Hi1, Hnone.
    eexists. split; [reflexivity|]. cbn [Legacy.state_of].
    by rewrite Himg1, Hidx1, Hi1, Hx1.
Qed.

Lemma legacy_delete_never_wraps_witness :
  let old := legacy_showing [A; B; C] 2 None 1000 in
  let removed := delete (Z.to_nat 2) (Legacy.images old) in
  (exists old',
     Legacy.removeCurrent old = Legacy.Returned old'
     /\ Legacy.images old' = removed
     /\ Legacy.index old' = Some 2)
  /\ (forall follower,
        at_index (Legacy.images old) (2 + 1) = Some follower ->
        exists old',
          Legacy.keydown 46 old = Legacy.Returned old'
          /\ Legacy.images old' = removed
          /\ Legacy.preloadIndex old' = Some 2
          /\ Legacy.preloader_src old' = Some (url follower)
          /\ Legacy.previousShow old' = None)
  /\ (2 = len (Legacy.images old) - 1 ->
      exists old',
        Legacy.keydown 46 old = Legacy.Threw old'
        /\ Legacy.images old' = removed
        /\ Legacy.index old' = Some 2
        /\ at_index (Legacy.images old') 2 = None).
Proof.
  apply (legacy_delete_never_wraps (legacy_showing [A; B; C] 2 None 1000) 2).
  - reflexivity.
  - vm_compute. split; congruence.
  - reflexivity.
Defined.

(** X20. The older [imageFailed] evicts the image on screen, not the one
    that failed: with the image at [i] on screen and the preparation of a
    later image at [j] failing, the image at [i] is removed, the failed
    image stays in the collection, one place down, and the image that
    followed the evicted one is requested under index [i], with
    [previousShow] cleared. *)
Theorem legacy_imageFailed_removes_the_image_on_screen
    (old : Legacy.PhotoSlideshow) (i j : Z) (failed : Image) :
  Legacy.index old = Some i ->
  Legacy.preloadIndex old = Some j ->
  0 <= i < j ->
  at_index (Legacy.images old) j = Some failed ->
  exists old' follower,
    Legacy.imageFailed old = Legacy.Returned old'
    /\ Legacy.images old' = delete (Z.to_nat i) (Legacy.images old)
    /\ at_index (Legacy.images old') (j - 1) = Some failed
    /\ at_index (Legacy.images old) (i + 1) = Some follower
    /\ Legacy.index old' = Some i
    /\ Legacy.preloadIndex old' = Some i
    /\ Legacy.preloader_src old' = Some (url follower)
    /\ Legacy.previousShow old' = None.
Proof.
  intros Hidx Hpre Hij Hfailed. apply at_index_range in Hfailed as Hj.
  destruct (at_index_in_range (Legacy.images old) (i + 1)) as [follower Hf];
    [lia|].
  destruct (at_index_in_range (Legacy.images old) i) as [shown Hshown]; [lia|].
  unfold Legacy.imageFailed. rewrite Hidx. cbn [at_value]. rewrite Hshown.
  rewrite legacy_removeCurrent_in_range with (i := i) by (done || lia).
  cbn [Legacy.andThen]. unfold Legacy.preload. cbv zeta.
  match goal with |- context [Legacy.stopTimeout ?x] => set (s1 := x) end.
  assert (Legacy.images (Legacy.stopTimeout s1)
          = delete (Z.to_nat i) (Legacy.images old)
          /\ Legacy.index (Legacy.stopTimeout s1) = Some i
          /\ Legacy.previousShow (Legacy.stopTimeout s1) = None)
    as (Himg1 & Hidx1 & Hprev1).
  { unfold Legacy.stopTimeout. destruct (Legacy.showNextTimeout s1); cbn; done. }
  assert (Legacy.index s1 = Some i) as Hx1 by done.
  rewrite Hx1. cbn [at_value]. rewrite Himg1, lookup_delete_next, Hf by lia.
  exists (Legacy.with_preload (Some i) (Some (url follower))
            (Legacy.stopTimeout s1)), follower.
  split; [done|]. cbn. rewrite Himg1, Hidx1, Hprev1.
  split; [done|]. split; [|done].
  replace (j - 1) with ((j - 1 - 1) + 1) in |- * by lia.
  unfold at_index in *. destruct (Z.ltb_spec (j - 1 - 1 + 1) 0); [lia|].
  destruct (Z.ltb_spec j 0); [lia|].
  rewrite list_lookup_delete_ge by lia. rewrite <- Hfailed. f_equal. lia.
Qed.

Lemma legacy_imageFailed_removes_the_image_on_screen_witness :
  let old := Legacy.state_of
               (Legacy.preload (Some 2) (legacy_showing [A; B; C] 0 None 1000)) in
  exists old' follower,
    Legacy.imageFailed old = Legacy.Returned old'
    /\ Legacy.images old' = delete (Z.to_nat 0) (Legacy.images old)
    /\ at_index (Legacy.images old') (2 - 1) = Some C
    /\ at_index (Legacy.images old) (0 + 1) = Some follower
    /\ Legacy.index old' = Some 0
    /\ Legacy.preloadIndex old' = Some 0
    /\ Legacy.preloader_src old' = Some (url follower)
    /\ Legacy.previousShow old' = None.
Proof.
  apply (legacy_imageFailed_removes_the_image_on_screen
           (Legacy.state_of
              (Legacy.preload (Some 2) (legacy_showing [A; B; C] 0 None 1000)))
           0 2 C).
  - reflexivity.
  - reflexivity.
  - lia.
  - reflexivity.
Defined.

(** ** The older slideshow: pause and resume *)

(** X21. In the older slideshow a pause starts the interval over: the space
    key cancels the pending timer; a second space key requests the image on
    screen once more, and when that is prepared it is shown again at once,
    [previousShow] is stamped anew and only then is the next image
    requested. *)
Theorem legacy_pause_costs_a_full_interval
    (old : Legacy.PhotoSlideshow) (h : positive) (i now : Z) (shown : Image) :
  Legacy.showNextTimeout old = Some h ->
  Legacy.index old = Some i ->
  at_index (Legacy.images old) i = Some shown ->
  exists old3,
    Legacy.andThen (Legacy.andThen (Legacy.keydown 32 old) (Legacy.keydown 32))
      (Legacy.imageLoaded now)
    = Legacy.Returned old3
    /\ Legacy.images old3 = Legacy.images old
    /\ Legacy.index old3 = Some i
    /\ Legacy.img_src old3 = Some (url shown)
    /\ Legacy.previousShow old3 = Some now
    /\ Legacy.showNextTimeout old3 = None
    /\ Legacy.preloadIndex old3
       = Some (next_index (len (Legacy.images old)) i).
Proof.
  intros Htimer Hidx Hshown. apply at_index_range in Hshown as Hi.
  destruct (at_index_in_range (Legacy.images old)
              (next_index (len (Legacy.images old)) i)) as [nxt Hnxt];
    [by apply next_index_range|].
  destruct old as [imgs idx pre prev t hd src img live seq].
  cbn in Htimer, Hidx, Hshown, Hi, Hnxt. subst hd idx.
  cbn -[at_index next_index len Legacy.next clearTimeout].
  unfold Legacy.preload at 1.
  cbn -[at_index next_index len Legacy.next clearTimeout]. rewrite Hshown.
  cbn -[at_index next_index len Legacy.next clearTimeout].
  unfold Legacy.imageLoaded.
  cbn -[at_index next_index len Legacy.next clearTimeout]. rewrite Hshown.
  unfold Legacy.showNext.
  cbn -[at_index next_index len Legacy.next clearTimeout]. rewrite Hshown.
  match goal with |- context [Legacy.next ?x] =>
    rewrite (proj1 (legacy_next_preloads_next_index x i eq_refl)) end.
  unfold Legacy.preload.
  cbn -[at_index next_index len Legacy.next clearTimeout]. rewrite Hnxt.
  eexists. split; [reflexivity|]. by cbn.
Qed.

Lemma legacy_pause_costs_a_full_interval_witness :
  let old := Legacy.state_of
               (Legacy.imageLoaded 200
                  (Legacy.state_of
                     (Legacy.preload (Some 1)
                        (legacy_showing [A; B; C] 0 (Some 0) 1000)))) in
  exists old3,
    Legacy.andThen (Legacy.andThen (Legacy.keydown 32 old) (Legacy.keydown 32))
      (Legacy.imageLoaded 5000)
    = Legacy.Returned old3
    /\ Legacy.images old3 = Legacy.images old
    /\ Legacy.index old3 = Some 0
    /\ Legacy.img_src old3 = Some (url A)
    /\ Legacy.previousShow old3 = Some 5000
    /\ Legacy.showNextTimeout old3 = None
    /\ Legacy.preloadIndex old3
       = Some (next_index (len (Legacy.images old)) 0).
Proof.
  apply (legacy_pause_costs_a_full_interval
           (Legacy.state_of
              (Legacy.imageLoaded 200
                 (Legacy.state_of
                    (Legacy.preload (Some 1)
                       (legacy_showing [A; B; C] 0 (Some 0) 1000)))))
           1%positive 0 5000 A); reflexivity.
Defined.

(** ** Pausing *)

(** X17. The space key on a running slideshow silences the timer: afterwards
    the flag is set, no timer is live or held, the display surface prepares
    nothing, the collection and the index on screen are as they were, and a
    timer that fires late, under whatever handle, changes nothing. *)
Theorem pause_silences_the_timer (s : PhotoSlideshow) (now : Z) (h : positive) :
  one_timer s ->
  paused s = false ->
  exists s1,
    togglePause s = Returned s1
    /\ paused s1 = true
    /\ timers s1 = []
    /\ showNextTimeout s1 = None
    /\ pending s1 = None
    /\ images s1 = images s
    /\ Viewer.showIndex (viewer s1) = Viewer.showIndex (viewer s)
    /\ handle (TimerFired now h) s1 = Returned s1.
Proof.
  intros Hone Hrun. unfold togglePause. rewrite Hrun. cbv zeta.
  destruct (stopTimeout_makes_idle s Hone) as [Hh Ht].
  eexists. split; [reflexivity|]. split; [done|].
  split; [exact Ht|]. split; [exact Hh|]. split; [done|].
  split; [exact (images_stopTimeout s)|].
  split; [exact (showIndex_stopTimeout s)|].
  cbn [handle]. cbn [timers with_paused with_viewer]. by rewrite Ht.
Qed.

Lemma pause_silences_the_timer_witness :
  exists s1,
    togglePause (waiting_for_B 1000) = Returned s1
    /\ paused s1 = true
    /\ timers s1 = []
    /\ showNextTimeout s1 = None
    /\ pending s1 = None
    /\ images s1 = images (waiting_for_B 1000)
    /\ Viewer.showIndex (viewer s1)
       = Viewer.showIndex (viewer (waiting_for_B 1000))
    /\ handle (TimerFired 1000 1%positive) s1 = Returned s1.
Proof.
  apply (pause_silences_the_timer (waiting_for_B 1000) 1000 1%positive).
  - vm_compute. eauto.
  - reflexivity.
Defined.

(** ** Starting *)

(** X18. [configLoaded] raises on an empty configuration. On any other it
    requests the first image, and when that is prepared, at whatever time,
    it is shown at once and the second image is requested, or the first
    again when it is the only one. *)
Theorem configLoaded_starts_with_the_first_image
    (imgs : list Image) (t now : Z) (image : Image) (index : Z) :
  match imgs with
  | [] => exists s, configLoaded imgs t = Threw s
  | first :: _ =>
      exists s1 s2 second,
        configLoaded imgs t = Returned s1
        /\ pending s1 = Some (first, 0)
        /\ Viewer.calls (viewer s1) = [Viewer.Preload first 0]
        /\ imageLoaded now image index s1 = Returned s2
        /\ Viewer.showIndex (viewer s2) = Some 0
        /\ previousShow s2 = Some now
        /\ pending s2 = Some (second, next_index (len imgs) 0)
        /\ at_index imgs (next_index (len imgs) 0) = Some second
  end.
Proof.
  destruct imgs as [|first rest]; [by eexists|].
  set (imgs := first :: rest).
  destruct (at_index_in_range imgs (next_index (len imgs) 0)) as [second Hsec].
  { apply next_index_range. unfold imgs, len. simpl. lia. }
  eexists _, _, second. split; [reflexivity|]. split; [done|].
  split; [done|].
  rewrite imageLoaded_without_previousShow by done.
  unfold showPreloaded. cbv zeta.
  match goal with |- context [next ?x] =>
    rewrite (next_preloads_next_index x 0 eq_refl);
    change (images x) with imgs;
    rewrite (preload_in_range x _ second Hsec)
  end.
  split; [reflexivity|]. done.
Qed.

(** ** The older slideshow before it starts *)

(** X22. With a window, [ok] returns, and it is true exactly when the viewer
    is given and the query string has a [config] parameter that is not
    empty; the messages are cached, so a second reading gives the same
    answer and writes nothing. *)
Theorem legacy_ok_exactly_with_viewer_and_config
    (config_param : string -> option string)
    (s : Startup.PhotoSlideshow) (search : string) :
  Startup.window s = Some search ->
  Startup._errors s = None ->
  exists b s1,
    Startup.ok config_param s = Startup.Value b s1
    /\ (b = true <->
        Startup.viewer s = true
        /\ search <> ""
        /\ exists u, config_param search = Some u /\ u <> "")
    /\ Startup.ok config_param s1 = Startup.Value b s1.
Proof.
  intros Hw He. unfold Startup.ok, Startup.errors, Startup.configURL.
  rewrite He, Hw. cbv zeta.
  destruct (Startup.viewer s) eqn:Hv; cbn [negb];
    destruct (String.eqb_spec search "") as [->|Hsearch];
    cbn [Startup.is_falsy];
    try destruct (config_param search) as [u|] eqn:Hu;
    cbn [Startup.is_falsy];
    try destruct (String.eqb_spec u "") as [->|Hne];
    eexists _, _; (split; [reflexivity|]); (split; [|reflexivity]);
    cbn; split; try done; try (intros (? & ? & ?); done);
    try (intros (? & ? & ? & ? & ?); congruence).
  intros _. eauto.
Qed.

Lemma legacy_ok_exactly_with_viewer_and_config_witness :
  exists b s1,
    Startup.ok (fun _ => Some "slides.json")
      {| Startup.window := Some "?config=slides.json";
         Startup.viewer := true; Startup._errors := None |}
    = Startup.Value b s1
    /\ (b = true <->
        true = true
        /\ "?config=slides.json" <> ""
        /\ exists u, Some "slides.json" = Some u /\ u <> "")
    /\ Startup.ok (fun _ => Some "slides.json") s1 = Startup.Value b s1.
Proof.
  apply (legacy_ok_exactly_with_viewer_and_config
           (fun _ => Some "slides.json")
           {| Startup.window := Some "?config=slides.json";
              Startup.viewer := true; Startup._errors := None |}
           "?config=slides.json"); reflexivity.
Defined.

(** X23. Without a window the first reading of [ok] raises instead of
    reporting it, because [configURL] reads the location of the missing
    window; the messages pushed before that stay cached, so a second reading
    returns false with ["window is null"] as the first message and no
    message about the configuration. *)
Theorem legacy_ok_raises_without_window
    (config_param : string -> option string) (s : Startup.PhotoSlideshow) :
  Startup.window s = None ->
  Startup._errors s = None ->
  exists s1 rest,
    Startup.ok config_param s = Startup.Raised s1
    /\ Startup.ok config_param s1 = Startup.Value false s1
    /\ Startup.errors config_param s1
       = Startup.Value ("window is null" :: rest) s1
    /\ ~ In "supply a config=URL query parameter" rest.
Proof.
  intros Hw He. unfold Startup.ok, Startup.errors, Startup.configURL.
  rewrite He, Hw. cbv zeta.
  destruct (Startup.viewer s); cbn [negb]; eexists _, _;
    (split; [reflexivity|]); (split; [reflexivity|]);
    (split; [reflexivity|]); cbn; intros H;
    repeat destruct H as [H|H]; done.
Qed.

Lemma legacy_ok_raises_without_window_witness :
  exists s1 rest,
    Startup.ok (fun _ => None)
      {| Startup.window := None; Startup.viewer := false;
         Startup._errors := None |}
    = Startup.Raised s1
    /\ Startup.ok (fun _ => None) s1 = Startup.Value false s1
    /\ Startup.errors (fun _ => None) s1
       = Startup.Value ("window is null" :: rest) s1
    /\ ~ In "supply a config=URL query parameter" rest.
Proof.
  apply (legacy_ok_raises_without_window (fun _ => None)
           {| Startup.window := None; Startup.viewer := false;
              Startup._errors := None |}); reflexivity.
Defined.
